(** * lobe-vidol virtual human: the render-stream pipeline

    A shallow embedding of

    - [src/libs/virtualHuman/modules/SegmentationModule.ts]
    - [src/libs/virtualHuman/modules/GenerationModule.ts]
    - [src/libs/virtualHuman/core/VirtualHumanController.ts]
    - [src/libs/virtualHuman/adapters/CameraModeAdapter.ts]
    - the [SmartSentenceSegmenter] of the camera-mode integration component

    and the properties of the design document that concern them.

    Conventions.  A JavaScript string is the list of its UTF-16 code units.
    An optional field of a TypeScript interface is an [option].  A call that
    may throw returns a [Completion].  [Date.now()] and [Math.random()] are
    read from an explicit [Entropy] value; the product of [Math.random()] and
    a length is taken exactly.  A table written as an object literal is read
    as JavaScript reads it: a key the table does not hold finds the member of
    [Object.prototype] of that name, when there is one.  The controller is an
    [EventEmitter]: [on] attaches a listener to the name of an event, [emit]
    appends the event to the trace of the controller, and an [error] event
    that no listener is attached to is not dispatched: [emit] throws instead.
    The listeners themselves are collaborators outside the pipeline and are
    taken not to throw.  [setTimeout] records the callback and its delay in
    the list of pending timers.  A call is modelled from its first statement
    to its last: what another call does while this one awaits is not
    interleaved. *)

From Stdlib Require Import ZArith NArith QArith Qround Lia Bool Ascii String.
From Stdlib Require Import Numbers.DecimalString.
From stdpp Require Import base list option gmap strings.

Set Default Proof Using "Type".
Local Open Scope Z_scope.

(** ** JavaScript strings *)

Module JS.

Definition jsstring := list N.

(** An ASCII literal. *)
Definition lit (s : string) : jsstring :=
  List.map N_of_ascii (list_ascii_of_string s).

Definition len (s : jsstring) : Z := Z.of_nat (List.length s).

Definition eqb (a b : jsstring) : bool := bool_decide (a = b).

Fixpoint startsWith (needle hay : jsstring) : bool :=
  match needle, hay with
  | [], _ => true
  | _ :: _, [] => false
  | a :: n', b :: h' => N.eqb a b && startsWith n' h'
  end.

(** [String.prototype.includes]. *)
Fixpoint includes (hay needle : jsstring) : bool :=
  startsWith needle hay
  || match hay with
     | [] => false
     | _ :: h' => includes h' needle
     end.

(** LineTerminator of ECMAScript: LF, CR, LS, PS. *)
Definition isLineTerminator (c : N) : bool :=
  (N.eqb c 0x0A || N.eqb c 0x0D || N.eqb c 0x2028 || N.eqb c 0x2029)%N.

(** WhiteSpace and LineTerminator of ECMAScript, what [trim] strips. *)
Definition isWhiteSpace (c : N) : bool :=
  isLineTerminator c
  || (N.eqb c 0x09 || N.eqb c 0x0B || N.eqb c 0x0C || N.eqb c 0x20
      || N.eqb c 0xA0 || N.eqb c 0x1680
      || (N.leb 0x2000 c && N.leb c 0x200A)
      || N.eqb c 0x202F || N.eqb c 0x205F || N.eqb c 0x3000
      || N.eqb c 0xFEFF)%N.

Fixpoint dropWhile (p : N -> bool) (s : jsstring) : jsstring :=
  match s with
  | [] => []
  | c :: r => if p c then dropWhile p r else s
  end.

Fixpoint takeWhile (p : N -> bool) (s : jsstring) : jsstring :=
  match s with
  | [] => []
  | c :: r => if p c then c :: takeWhile p r else []
  end.

Definition trimStart (s : jsstring) : jsstring := dropWhile isWhiteSpace s.
Definition trimEnd (s : jsstring) : jsstring :=
  List.rev (dropWhile isWhiteSpace (List.rev s)).
Definition trim (s : jsstring) : jsstring := trimEnd (trimStart s).

(** [s.slice(n)] for [0 <= n]. *)
Definition sliceFrom (n : nat) (s : jsstring) : jsstring := List.skipn n s.

(** [xs.slice(-n)]: the last [n] elements, all of them when there are fewer. *)
Definition sliceLast {A} (n : nat) (xs : list A) : list A :=
  List.skipn (List.length xs - n) xs.

(** A JavaScript value used as a condition: a string is truthy when it is
    not empty. *)
Definition truthy (s : jsstring) : bool :=
  match s with [] => false | _ :: _ => true end.

(** [v || d] for an optional string [v]: [undefined] and the empty string
    are falsy. *)
Definition orElse (v : option jsstring) (d : jsstring) : jsstring :=
  match v with
  | Some s => if truthy s then s else d
  | None => d
  end.

(** [xs[i]] for a number [i]: [undefined] outside the array. *)
Definition at_index {A} (xs : list A) (i : Z) : option A :=
  if i <? 0 then None else List.nth_error xs (Z.to_nat i).

(** The characters of a string that are not white space. *)
Definition nonWhite (s : jsstring) : jsstring :=
  List.filter (fun c => negb (isWhiteSpace c)) s.

(** Decimal digits of an integer, as [String(n)] prints it. *)
Definition ofZ (n : Z) : jsstring :=
  lit (NilZero.string_of_int (Z.to_int n)).

(** The part of [String.prototype.toLowerCase] that concerns ASCII; it is
    the whole of it on a string with no cased letter outside ASCII. *)
Definition lowerASCII (s : jsstring) : jsstring :=
  List.map (fun c => if (N.leb 65 c && N.leb c 90)%N then (c + 32)%N else c) s.

(** The names of the members of [Object.prototype], which every object
    written as a literal inherits. *)
Definition objectPrototypeNames : list jsstring :=
  [lit "constructor"; lit "__defineGetter__"; lit "__defineSetter__";
   lit "hasOwnProperty"; lit "__lookupGetter__"; lit "__lookupSetter__";
   lit "isPrototypeOf"; lit "propertyIsEnumerable"; lit "toString";
   lit "valueOf"; lit "__proto__"; lit "toLocaleString"].

(** What a read of a table with values in [A] gives: a value of the table,
    or the member [name] of [Object.prototype], a function or, for
    [__proto__], the prototype itself.  Such a member is truthy, it is equal
    to itself only, and it holds nothing at any index. *)
Inductive Read (A : Type) :=
| Value (a : A)
| Inherited (name : jsstring).
Arguments Value {A} a.
Arguments Inherited {A} name.

#[global] Instance Read_eq_dec {A} `{EqDecision A} : EqDecision (Read A).
Proof. solve_decision. Defined.

(** [table[key]] for a table written as an object literal: its own property
    [key], else the member of [Object.prototype] of that name, else
    [undefined]. *)
Definition read {A} (table : gmap jsstring A) (key : jsstring)
  : option (Read A) :=
  match table !! key with
  | Some a => Some (Value a)
  | None =>
      if bool_decide (key ∈ objectPrototypeNames) then Some (Inherited key)
      else None
  end.

(** A value read that way, used as a condition. *)
Definition truthyRead (v : option (Read jsstring)) : bool :=
  match v with
  | Some (Value s) => truthy s
  | Some (Inherited _) => true
  | None => false
  end.

(** Code units of the punctuation the sources name. *)
Definition IDEOGRAPHIC_FULL_STOP : N := 0x3002.   (* 。 *)
Definition FULLWIDTH_EXCLAMATION : N := 0xFF01.   (* ！ *)
Definition FULLWIDTH_QUESTION : N := 0xFF1F.      (* ？ *)
Definition FULLWIDTH_SEMICOLON : N := 0xFF1B.     (* ； *)
Definition FULLWIDTH_COMMA : N := 0xFF0C.         (* ， *)
Definition FULLWIDTH_FULL_STOP : N := 0xFF0E.     (* ． *)
Definition IDEOGRAPHIC_COMMA : N := 0x3001.       (* 、 *)
Definition LF : N := 0x0A.
Definition TILDE : N := 0x7E.
Definition FULL_STOP : N := 0x2E.
Definition EXCLAMATION : N := 0x21.
Definition QUESTION : N := 0x3F.
Definition SEMICOLON : N := 0x3B.
Definition COMMA : N := 0x2C.

End JS.

Import JS.

(** ** Types of the render-stream protocol ([types/renderStream]) *)

(** The camera modes: the string literal union of [RenderStream.camera]. *)
Inductive CameraMode :=
| CamNone          (* 空 *)
| CamSmart         (* 智能镜头 *)
| CamTrackCloseUp  (* 跟踪-大脸 *)
| CamTrackBack     (* 跟踪-背向 *)
| CamTrackFront.   (* 跟踪-朝向 *)

#[global] Instance CameraMode_eq_dec : EqDecision CameraMode.
Proof. solve_decision. Defined.

Record RenderStream := mkRenderStream {
  audio : option jsstring;
  background : option jsstring;
  camera : option CameraMode;
  (* a string by its type; what a read of the expression table gave *)
  expression : option (Read jsstring);
  (* an entry is [None] where the array holds [undefined] *)
  motion : option (list (option jsstring));
  scene : option jsstring;
  streamId : option jsstring;
  text : option jsstring;
  timestamp : option Z
}.

Record RenderStreamHistory := mkHistory {
  currentIndex : Z;
  maxHistory : Z;
  streams : list RenderStream
}.

Record SentenceSegment := mkSegment {
  seg_emotion : option jsstring;
  seg_emphasis : option bool;
  seg_pause : option Z;
  seg_text : jsstring
}.

Inductive RenderStreamState := ERROR | IDLE | PROCESSING | RENDERING | TRANSITIONING.

#[global] Instance RenderStreamState_eq_dec : EqDecision RenderStreamState.
Proof. solve_decision. Defined.

Record VirtualHumanConfig := mkVHConfig {
  (* a string in the interface; the controller casts it to the camera union *)
  vh_defaultCamera : CameraMode;
  vh_defaultExpression : jsstring;
  vh_defaultMotion : list jsstring;
  enableEmotionAnalysis : bool;
  enableSeamlessTransition : bool;
  enableSmartSegmentation : bool
}.

(** [Partial<VirtualHumanConfig>]: [None] where the key is absent. *)
Record PartialConfig := mkPartialConfig {
  p_defaultCamera : option CameraMode;
  p_defaultExpression : option jsstring;
  p_defaultMotion : option (list jsstring);
  p_enableEmotionAnalysis : option bool;
  p_enableSeamlessTransition : option bool;
  p_enableSmartSegmentation : option bool
}.

(** [{ ...config, ...partial }]. *)
Definition spread (config : VirtualHumanConfig) (partial : PartialConfig)
  : VirtualHumanConfig :=
  {| vh_defaultCamera := default (vh_defaultCamera config) (p_defaultCamera partial);
     vh_defaultExpression :=
       default (vh_defaultExpression config) (p_defaultExpression partial);
     vh_defaultMotion := default (vh_defaultMotion config) (p_defaultMotion partial);
     enableEmotionAnalysis :=
       default (enableEmotionAnalysis config) (p_enableEmotionAnalysis partial);
     enableSeamlessTransition :=
       default (enableSeamlessTransition config) (p_enableSeamlessTransition partial);
     enableSmartSegmentation :=
       default (enableSmartSegmentation config) (p_enableSmartSegmentation partial) |}.

(** What a call reads from the clock and the random source while it builds
    one render stream: [Math.random()] of the motion pick, [Date.now()] of
    the time stamp, and [Date.now()] and the nine base-36 digits of
    [Math.random()] that make the stream id. *)
Record Entropy := mkEntropy {
  rand_motion : Q;
  now_timestamp : Z;
  now_id : Z;
  rand_id : jsstring
}.

(** ** SegmentationModule *)

Module SegmentationModule.

Record Config := mkConfig {
  minSegmentLength : Z;
  maxSegmentLength : Z;
  punctuationMarks : list jsstring;
  (* in the order [Object.entries] lists the keys *)
  emotionKeywords : list (jsstring * jsstring)
}.

Definition defaultMarks : list jsstring :=
  List.map (fun c => [c])
    [IDEOGRAPHIC_FULL_STOP; FULLWIDTH_EXCLAMATION; FULLWIDTH_QUESTION;
     FULLWIDTH_SEMICOLON; FULLWIDTH_COMMA;
     FULL_STOP; EXCLAMATION; QUESTION; SEMICOLON; COMMA].

Definition defaultKeywords : list (jsstring * jsstring) :=
  [ ([0x5F00; 0x5FC3]%N, lit "happy");      (* 开心 *)
    ([0x9AD8; 0x5174]%N, lit "happy");      (* 高兴 *)
    ([0x5FEB; 0x4E50]%N, lit "happy");      (* 快乐 *)
    ([0x6124; 0x6012]%N, lit "angry");      (* 愤怒 *)
    ([0x751F; 0x6C14]%N, lit "angry");      (* 生气 *)
    ([0x60B2; 0x4F24]%N, lit "sad");        (* 悲伤 *)
    ([0x96BE; 0x8FC7]%N, lit "sad");        (* 难过 *)
    ([0x54ED; 0x6CE3]%N, lit "cry");        (* 哭泣 *)
    ([0x60CA; 0x8BB6]%N, lit "surprised");  (* 惊讶 *)
    ([0x5BB3; 0x6015]%N, lit "fear");       (* 害怕 *)
    ([0x6050; 0x60E7]%N, lit "fear");       (* 恐惧 *)
    ([0x538C; 0x6076]%N, lit "disgust");    (* 厌恶 *)
    ([0x6076; 0x5FC3]%N, lit "disgust") ].  (* 恶心 *)

Definition defaultConfig : Config :=
  mkConfig 10 100 defaultMarks defaultKeywords.

(** The class [[。！？；\n]] of the sentence regular expression. *)
Definition isHardBoundary (c : N) : bool :=
  (N.eqb c IDEOGRAPHIC_FULL_STOP || N.eqb c FULLWIDTH_EXCLAMATION
   || N.eqb c FULLWIDTH_QUESTION || N.eqb c FULLWIDTH_SEMICOLON
   || N.eqb c LF)%N.

(** [text.match(/[^。！？；\n]+[。！？；\n]*/g)]: from the position the last
    match ended at, the next match starts at the first character outside
    the class, takes every character up to the next one of the class, then
    every character of the class that follows.  [fuel] bounds the number of
    matches. *)
Fixpoint matchAll (fuel : nat) (text : jsstring) : list jsstring :=
  match fuel with
  | O => []
  | S fuel' =>
      match dropWhile isHardBoundary text with
      | [] => []
      | start =>
          let body := takeWhile (fun c => negb (isHardBoundary c)) start in
          let rest := dropWhile (fun c => negb (isHardBoundary c)) start in
          let stops := takeWhile isHardBoundary rest in
          (body ++ stops) :: matchAll fuel' (dropWhile isHardBoundary rest)
      end
  end.

Definition splitIntoSentences (text : jsstring) : list jsstring :=
  List.filter (fun s => 0 <? len s)
    (List.map trim (matchAll (List.length text) text)).

Definition hasEmphasis (text : jsstring) : bool :=
  includes text (lit "**") || includes text (lit "__")
  || includes text [FULLWIDTH_EXCLAMATION] || includes text [EXCLAMATION].

(** The weight [calculatePause] gives a mark; a mark that is none of the ten
    it names adds nothing, whatever its count. *)
Definition markWeight (mark : jsstring) : Z :=
  if eqb mark [IDEOGRAPHIC_FULL_STOP] || eqb mark [FULL_STOP] then 500
  else if eqb mark [FULLWIDTH_EXCLAMATION] || eqb mark [EXCLAMATION] then 300
  else if eqb mark [FULLWIDTH_QUESTION] || eqb mark [QUESTION] then 400
  else if eqb mark [FULLWIDTH_SEMICOLON] || eqb mark [SEMICOLON] then 200
  else if eqb mark [FULLWIDTH_COMMA] || eqb mark [COMMA] then 100
  else 0.

(** The number of matches of the escaped mark, for a mark of one code unit
    (the only marks with a weight). *)
Definition countMark (mark text : jsstring) : Z :=
  match mark with
  | [c] => Z.of_nat (List.length (List.filter (N.eqb c) text))
  | _ => 0
  end.

Section WithConfig.

Variable toLowerCase : jsstring -> jsstring.
Variable config : Config.

Definition calculatePause (text : jsstring) : Z :=
  List.fold_left
    (fun pause mark => pause + countMark mark text * markWeight mark)
    (punctuationMarks config) 0.

Fixpoint firstKeyword (lowerText : jsstring)
    (entries : list (jsstring * jsstring)) : option jsstring :=
  match entries with
  | [] => None
  | (keyword, emotion) :: rest =>
      if includes lowerText keyword then Some emotion
      else firstKeyword lowerText rest
  end.

Definition analyzeEmotion (text : jsstring) : jsstring :=
  let lowerText := toLowerCase text in
  match firstKeyword lowerText (emotionKeywords config) with
  | Some emotion => emotion
  | None =>
      if includes text [FULLWIDTH_EXCLAMATION] || includes text [EXCLAMATION]
      then lit "surprised"
      else if includes text [FULLWIDTH_QUESTION] || includes text [QUESTION]
      then lit "surprised"
      else lit "neutral"
  end.

Definition mk (text emotion : jsstring) : SentenceSegment :=
  mkSegment (Some emotion) (Some (hasEmphasis text))
    (Some (calculatePause text)) text.

Definition isMark (word : N) : bool :=
  List.existsb (eqb [word]) (punctuationMarks config).

(** The loop of [splitLongSentence] over the code units still to read, with
    the segment being built, and the flush of what is left. *)
Fixpoint splitLongLoop (emotion : jsstring) (words : list N)
    (currentSegment : jsstring) : list SentenceSegment :=
  match words with
  | [] =>
      if truthy (trim currentSegment) then [mk currentSegment emotion] else []
  | word :: words' =>
      let currentSegment := currentSegment ++ [word] in
      if isMark word && (minSegmentLength config <=? len currentSegment)
      then mk currentSegment emotion :: splitLongLoop emotion words' []
      else splitLongLoop emotion words' currentSegment
  end.

Definition splitLongSentence (sentence emotion : jsstring)
  : list SentenceSegment :=
  splitLongLoop emotion sentence [].

Definition segmentSentence (sentence : jsstring) : list SentenceSegment :=
  let emotion := analyzeEmotion sentence in
  if maxSegmentLength config <? len sentence
  then splitLongSentence sentence emotion
  else [mk sentence emotion].

Definition segment (text : jsstring) : list SentenceSegment :=
  List.flat_map segmentSentence (splitIntoSentences text).

End WithConfig.

End SegmentationModule.

(** ** GenerationModule *)

Module GenerationModule.

Record Config := mkConfig {
  defaultExpression : jsstring;
  defaultMotion : list jsstring;
  defaultCamera : CameraMode;
  emotionToExpression : gmap jsstring jsstring;
  emotionToMotion : gmap jsstring (list jsstring)
}.

Definition defaultConfig : Config :=
  mkConfig (lit "neutral") [lit "idle"] CamSmart
    (list_to_map
       [ (lit "happy", lit "smile"); (lit "angry", lit "angry");
         (lit "sad", lit "sad"); (lit "cry", lit "cry");
         (lit "surprised", lit "surprised"); (lit "fear", lit "fear");
         (lit "disgust", lit "disgust"); (lit "neutral", lit "neutral") ])
    (list_to_map
       [ (lit "happy", [lit "wave"; lit "dance"]);
         (lit "angry", [lit "fist"; lit "point"]);
         (lit "sad", [lit "head_down"; lit "sigh"]);
         (lit "cry", [lit "cry"; lit "wipe_tears"]);
         (lit "surprised", [lit "jump"; lit "hands_up"]);
         (lit "fear", [lit "shrink"; lit "cover_face"]);
         (lit "disgust", [lit "turn_away"; lit "cover_nose"]);
         (lit "neutral", [lit "idle"; lit "look_around"]) ]).

Definition generateStreamId (e : Entropy) : jsstring :=
  lit "stream_" ++ ofZ (now_id e) ++ lit "_" ++ rand_id e.

Section WithConfig.

Variable toLowerCase : jsstring -> jsstring.
Variable config : Config.

Definition mapEmotionToExpression (emotion : jsstring) : Read jsstring :=
  match read (emotionToExpression config) emotion with
  | Some (Value expression) =>
      if truthy expression then Value expression
      else Value (defaultExpression config)
  | Some (Inherited name) => Inherited name
  | None => Value (defaultExpression config)
  end.

(** [motions[Math.floor(random * motions.length)]] for an array. *)
Definition pick (random : Q) (motions : list jsstring) : option jsstring :=
  at_index motions
    (Qfloor (random * inject_Z (Z.of_nat (List.length motions)))).

(** [random] is the value [Math.random()] returns.  A member of
    [Object.prototype] is truthy, so it is the [motions] the pick is made
    from: whatever its [length], it holds nothing at the index. *)
Definition mapEmotionToMotion (random : Q) (emotion : jsstring)
  : list (option jsstring) :=
  let randomMotion :=
    match read (emotionToMotion config) emotion with
    | Some (Value motions) => pick random motions
    | Some (Inherited _) => None
    | None => pick random (defaultMotion config)
    end in
  [randomMotion].

Definition determineCameraMode (segment : SentenceSegment)
    (history : RenderStreamHistory) : CameraMode :=
  if bool_decide (seg_emphasis segment = Some true) then CamTrackCloseUp
  else if bool_decide (seg_emotion segment = Some (lit "surprised"))
          || bool_decide (seg_emotion segment = Some (lit "fear"))
  then CamTrackFront
  else if bool_decide (seg_emotion segment = Some (lit "sad"))
          || bool_decide (seg_emotion segment = Some (lit "cry"))
  then CamTrackBack
  else
    let recentStreams := sliceLast 3 (streams history) in
    let lastCamera :=
      match at_index recentStreams (Z.of_nat (List.length recentStreams) - 1) with
      | Some s => camera s
      | None => None
      end in
    match lastCamera with
    | Some c => if bool_decide (c <> CamNone) then c else defaultCamera config
    | None => defaultCamera config
    end.

Definition hasScene (s : RenderStream) : bool :=
  match scene s with Some sc => truthy sc | None => false end.

Definition determineScene (segment : SentenceSegment)
    (history : RenderStreamHistory) : option jsstring :=
  let text := toLowerCase (seg_text segment) in
  if includes text [0x529E; 0x516C; 0x5BA4]%N        (* 办公室 *)
     || includes text [0x5DE5; 0x4F5C]%N             (* 工作 *)
  then Some (lit "office")
  else if includes text [0x5BB6]%N                   (* 家 *)
          || includes text [0x623F; 0x95F4]%N        (* 房间 *)
  then Some (lit "home")
  else if includes text [0x516C; 0x56ED]%N           (* 公园 *)
          || includes text [0x6237; 0x5916]%N        (* 户外 *)
  then Some (lit "park")
  else if includes text [0x821E; 0x53F0]%N           (* 舞台 *)
          || includes text [0x8868; 0x6F14]%N        (* 表演 *)
  then Some (lit "stage")
  else
    let recentStreams := sliceLast 5 (streams history) in
    let lastScene :=
      match List.find hasScene recentStreams with
      | Some s => scene s
      | None => None
      end in
    Some (orElse lastScene (lit "default")).

Definition determineBackground (segment : SentenceSegment)
    (history : RenderStreamHistory) : option jsstring :=
  let emotion := orElse (seg_emotion segment) (lit "neutral") in
  if eqb emotion (lit "happy") then Some (lit "bright_bg")
  else if eqb emotion (lit "sad") || eqb emotion (lit "cry")
  then Some (lit "dark_bg")
  else if eqb emotion (lit "fear") then Some (lit "mysterious_bg")
  else Some (lit "neutral_bg").

(** The hook for speech synthesis; it returns [undefined]. *)
Definition generateAudio (text : jsstring) : option jsstring := None.

Definition generate (e : Entropy) (segment : SentenceSegment)
    (history : RenderStreamHistory) : RenderStream :=
  let expression :=
    mapEmotionToExpression (orElse (seg_emotion segment) (lit "neutral")) in
  let motion :=
    mapEmotionToMotion (rand_motion e)
      (orElse (seg_emotion segment) (lit "neutral")) in
  let camera := determineCameraMode segment history in
  let audio := generateAudio (seg_text segment) in
  let scene := determineScene segment history in
  let background := determineBackground segment history in
  {| text := Some (seg_text segment);
     audio := audio;
     expression := Some expression;
     motion := Some motion;
     camera := Some camera;
     scene := scene;
     background := background;
     timestamp := Some (now_timestamp e);
     streamId := Some (generateStreamId e) |}.

End WithConfig.

End GenerationModule.

(** ** VirtualHumanController *)

Module VirtualHumanController.

(** A thrown value: what a module or a call of a missing method throws, or
    the [Error] that [emit] throws for an [error] event with no listener,
    whose [context] is the payload of the event. *)
Inductive JsError :=
| Thrown (what : string)
| Unhandled (error : JsError) (context : jsstring).

#[global] Instance JsError_eq_dec : EqDecision JsError.
Proof. solve_decision. Defined.

Inductive Completion (A : Type) :=
| Normal (a : A)
| Throw (e : JsError).
Arguments Normal {A} a.
Arguments Throw {A} e.

(** What [registerModule] stores: an object with a [segment], a [generate]
    or a [transition] method, or an object with none of them. *)
Inductive ModuleObj :=
| SegmentationM (segment : jsstring -> Completion (list SentenceSegment))
| GenerationM
    (generate : Entropy -> SentenceSegment -> RenderStreamHistory ->
                Completion RenderStream)
| TransitionM
    (transition : RenderStream -> RenderStreamHistory -> Completion unit)
| OtherM.

Inductive Event :=
| moduleRegistered (name : string) (module : ModuleObj)
| stateChanged (oldState newState : RenderStreamState)
| configUpdated (config : VirtualHumanConfig)
| historyCleared
| aiResponseReceived (text : jsstring)
| aiResponseProcessed (text : jsstring) (segments : list SentenceSegment)
| renderStreamReady (stream : RenderStream)
| error (error : JsError) (context : jsstring).

(** The callbacks the controller hands to [setTimeout]. *)
Inductive TimerCallback :=
| resetErrorState.

Record Controller := mkController {
  state : RenderStreamState;
  history : RenderStreamHistory;
  config : VirtualHumanConfig;
  modules : gmap string ModuleObj;
  (* every event dispatched so far, oldest first *)
  trace : list Event;
  (* every pending timer, with its delay in milliseconds *)
  timers : list (TimerCallback * Z);
  (* the name of the event of every listener attached, oldest first *)
  listeners : list string
}.

Definition new (config : VirtualHumanConfig) : Controller :=
  {| state := IDLE;
     history := {| streams := []; currentIndex := -1; maxHistory := 50 |};
     config := config;
     modules := ∅;
     trace := [];
     timers := [];
     listeners := [] |}.

(** Code of the controller: it reads and writes the controller and returns
    or throws. *)
Definition M (A : Type) : Type := Controller -> Controller * Completion A.

Definition ret {A} (a : A) : M A := fun c => (c, Normal a).
Definition throw {A} (e : JsError) : M A := fun c => (c, Throw e).
Definition bind {A B} (m : M A) (f : A -> M B) : M B :=
  fun c =>
    match m c with
    | (c', Normal a) => f a c'
    | (c', Throw e) => (c', Throw e)
    end.
Definition tryCatch {A} (m : M A) (handler : JsError -> M A) : M A :=
  fun c =>
    match m c with
    | (c', Normal a) => (c', Normal a)
    | (c', Throw e) => handler e c'
    end.
(** The outcome of an awaited call into a module. *)
Definition await {A} (r : Completion A) : M A := fun c => (c, r).
Definition get : M Controller := fun c => (c, Normal c).
Definition modify (f : Controller -> Controller) : M unit :=
  fun c => (f c, Normal tt).

Notation "x <- m ;; k" := (bind m (fun x => k))
  (at level 100, m at next level, right associativity).
Notation "m ;;; k" := (bind m (fun _ => k))
  (at level 100, right associativity).

Definition with_state (s : RenderStreamState) (c : Controller) : Controller :=
  mkController s (history c) (config c) (modules c) (trace c) (timers c)
    (listeners c).
Definition with_history (h : RenderStreamHistory) (c : Controller) : Controller :=
  mkController (state c) h (config c) (modules c) (trace c) (timers c)
    (listeners c).
Definition with_config (g : VirtualHumanConfig) (c : Controller) : Controller :=
  mkController (state c) (history c) g (modules c) (trace c) (timers c)
    (listeners c).
Definition with_modules (m : gmap string ModuleObj) (c : Controller) : Controller :=
  mkController (state c) (history c) (config c) m (trace c) (timers c)
    (listeners c).

(** [this.on(name, listener)] and [this.removeAllListeners()]. *)
Definition on (name : string) (c : Controller) : Controller :=
  mkController (state c) (history c) (config c) (modules c) (trace c)
    (timers c) (listeners c ++ [name]).
Definition removeAllListeners (c : Controller) : Controller :=
  mkController (state c) (history c) (config c) (modules c) (trace c)
    (timers c) [].

(** The event is dispatched. *)
Definition emit_ (ev : Event) (c : Controller) : Controller :=
  mkController (state c) (history c) (config c) (modules c)
    (trace c ++ [ev]) (timers c) (listeners c).
Definition setTimeout_ (cb : TimerCallback) (ms : Z) (c : Controller) : Controller :=
  mkController (state c) (history c) (config c) (modules c) (trace c)
    (timers c ++ [(cb, ms)]) (listeners c).
Definition setState_ (newState : RenderStreamState) (c : Controller) : Controller :=
  let oldState := state c in
  emit_ (stateChanged oldState newState) (with_state newState c).

(** [this.emit(name, payload)]: the event is dispatched, but an [error] event
    while no listener is attached to [error]: then [emit] throws. *)
Definition emit (ev : Event) : M unit :=
  fun c =>
    match ev with
    | error error_ context =>
        if bool_decide ("error" ∈ listeners c)
        then (emit_ ev c, Normal tt)
        else (c, Throw (Unhandled error_ context))
    | _ => (emit_ ev c, Normal tt)
    end.
Definition setTimeout (cb : TimerCallback) (ms : Z) : M unit :=
  modify (setTimeout_ cb ms).
Definition setState (newState : RenderStreamState) : M unit :=
  modify (setState_ newState).

Definition registerModule (name : string) (module : ModuleObj)
    (c : Controller) : Controller :=
  emit_ (moduleRegistered name module)
    (with_modules (<[name := module]> (modules c)) c).

Definition getModule (name : string) (c : Controller) : option ModuleObj :=
  modules c !! name.

Definition updateConfig (newConfig : PartialConfig) (c : Controller)
  : Controller :=
  let merged := spread (config c) newConfig in
  emit_ (configUpdated merged) (with_config merged c).

(** [getHistory] copies the record, not the array of streams. *)
Definition getHistory (c : Controller) : RenderStreamHistory := history c.

Definition addToHistory_ (stream : RenderStream) (h : RenderStreamHistory)
  : RenderStreamHistory :=
  let pushed := streams h ++ [stream] in
  let index := Z.of_nat (List.length pushed) - 1 in
  if maxHistory h <? Z.of_nat (List.length pushed)
  then {| streams := List.tl pushed;
          currentIndex := index - 1;
          maxHistory := maxHistory h |}
  else {| streams := pushed;
          currentIndex := index;
          maxHistory := maxHistory h |}.

Definition addToHistory (stream : RenderStream) : M unit :=
  modify (fun c => with_history (addToHistory_ stream (history c)) c).

Definition clearHistory_ (h : RenderStreamHistory) : RenderStreamHistory :=
  {| streams := []; currentIndex := -1; maxHistory := maxHistory h |}.

Definition clearHistory (c : Controller) : Controller :=
  emit_ historyCleared (with_history (clearHistory_ (history c)) c).

(** Calling a method the registered object does not have. *)
Definition notAFunction : JsError := Thrown "TypeError: not a function".

Definition segmentText (text : jsstring) : M (list SentenceSegment) :=
  c <- get ;;
  match getModule "segmentation" c with
  | Some module =>
      if enableSmartSegmentation (config c)
      then match module with
           | SegmentationM segment => await (segment text)
           | _ => throw notAFunction
           end
      else ret [mkSegment (Some (lit "neutral")) (Some false) (Some 0) text]
  | None => ret [mkSegment (Some (lit "neutral")) (Some false) (Some 0) text]
  end.

Definition generateRenderStream (e : Entropy) (segment : SentenceSegment)
  : M RenderStream :=
  c <- get ;;
  match getModule "generation" c with
  | Some (GenerationM generate) => await (generate e segment (history c))
  | Some _ => throw notAFunction
  | None =>
      ret {| text := Some (seg_text segment);
             expression :=
               Some (Value (orElse (seg_emotion segment)
                                   (vh_defaultExpression (config c))));
             motion := Some (List.map Some (vh_defaultMotion (config c)));
             camera := Some (vh_defaultCamera (config c));
             timestamp := Some (now_timestamp e);
             streamId := Some (GenerationModule.generateStreamId e);
             audio := None; scene := None; background := None |}
  end.

(** [module.transition(renderStream, history)]. *)
Definition callTransition (module : ModuleObj) (renderStream : RenderStream)
    (history : RenderStreamHistory) : Completion unit :=
  match module with
  | TransitionM transition => transition renderStream history
  | _ => Throw notAFunction
  end.

Definition triggerSeamlessTransition (renderStream : RenderStream) : M unit :=
  c <- get ;;
  if negb (enableSeamlessTransition (config c))
  then emit (renderStreamReady renderStream)
  else
    match getModule "transition" c with
    | Some module =>
        setState TRANSITIONING ;;;
        await (callTransition module renderStream (history c)) ;;;
        setState RENDERING ;;;
        emit (renderStreamReady renderStream)
    | None => emit (renderStreamReady renderStream)
    end.

(** The body of the [for] loop, for the segments from index [i] on;
    [entropy i] is what the clock and the random source give while segment
    [i] is turned into a render stream. *)
Fixpoint forEachSegment (entropy : nat -> Entropy) (i : nat)
    (segments : list SentenceSegment) : M unit :=
  match segments with
  | [] => ret tt
  | segment :: rest =>
      renderStream <- generateRenderStream (entropy i) segment ;;
      addToHistory renderStream ;;;
      triggerSeamlessTransition renderStream ;;;
      forEachSegment entropy (S i) rest
  end.

(** The [try] block of [processAIResponse]. *)
Definition processBody (entropy : nat -> Entropy) (text : jsstring) : M unit :=
  setState PROCESSING ;;;
  emit (aiResponseReceived text) ;;;
  segments <- segmentText text ;;
  forEachSegment entropy 0 segments ;;;
  setState IDLE ;;;
  emit (aiResponseProcessed text segments).

(** Its [catch] block. *)
Definition processCatch (error_ : JsError) : M unit :=
  setState ERROR ;;;
  emit (error error_ (lit "processAIResponse")) ;;;
  setTimeout resetErrorState 5000 ;;;
  throw error_.

Definition processAIResponse (entropy : nat -> Entropy) (text : jsstring)
  : M unit :=
  tryCatch (processBody entropy text) processCatch.

(** What a pending timer does when it fires. *)
Definition fire (cb : TimerCallback) (c : Controller) : Controller :=
  match cb with
  | resetErrorState =>
      if bool_decide (state c = ERROR) then setState_ IDLE c else c
  end.

Definition destroy (c : Controller) : Controller :=
  clearHistory (with_modules ∅ (removeAllListeners c)).

End VirtualHumanController.

(** ** TransitionModule, as the controller sees it: every sub-transition
    waits for the configured time and none throws, so [transition] returns. *)

Module TransitionModule.

Record Config := mkConfig {
  transitionDuration : Z;
  enableSmoothTransition : bool;
  enableCrossFade : bool;
  transitionThreshold : Q
}.

Definition defaultConfig : Config := mkConfig 300 true true (1 # 2).

Record Needs := mkNeeds {
  expressionChange : bool;
  motionChange : bool;
  cameraChange : bool;
  sceneChange : bool;
  backgroundChange : bool
}.

(** The steps of a transition that wait. *)
Inductive Step :=
| expressionStep | motionStep | cameraStep | sceneStep | backgroundStep
| crossFadeStep | finalStep.

(** An optional string used as a condition. *)
Definition given (v : option jsstring) : bool :=
  match v with Some s => truthy s | None => false end.

Section WithConfig.

(** [JSON.stringify] on the motion of a stream. *)
Variable stringify : option (list (option jsstring)) -> option jsstring.
Variable config : Config.

Definition analyzeTransitionNeeds (renderStream : RenderStream)
    (history : RenderStreamHistory) : Needs :=
  match at_index (streams history)
          (Z.of_nat (List.length (streams history)) - 1) with
  | None => mkNeeds true true true true true
  | Some lastStream =>
      {| expressionChange :=
           negb (bool_decide (expression lastStream = expression renderStream));
         motionChange :=
           negb (bool_decide (stringify (motion lastStream)
                              = stringify (motion renderStream)));
         cameraChange :=
           negb (bool_decide (camera lastStream = camera renderStream));
         sceneChange :=
           negb (bool_decide (scene lastStream = scene renderStream));
         backgroundChange :=
           negb (bool_decide (background lastStream = background renderStream)) |}
  end.

(** The calls of [delay] that [performSmoothTransition] starts, with their
    milliseconds, in the order the sub-transitions are pushed; a
    sub-transition whose value is missing returns without a call. *)
Definition performSmoothTransition (renderStream : RenderStream)
    (needs : Needs) : list (Step * Z) :=
  (if expressionChange needs && truthyRead (expression renderStream)
   then [(expressionStep, transitionDuration config)] else [])
  ++ (if motionChange needs
         && match motion renderStream with
            | Some (_ :: _) => true
            | _ => false
            end
      then [(motionStep, transitionDuration config)] else [])
  ++ (if cameraChange needs && bool_decide (camera renderStream <> None)
      then [(cameraStep, transitionDuration config)] else [])
  ++ (if sceneChange needs && given (scene renderStream)
      then [(sceneStep, transitionDuration config)] else [])
  ++ (if backgroundChange needs && given (background renderStream)
      then [(backgroundStep, transitionDuration config)] else []).

Definition performCrossFade (renderStream : RenderStream) (needs : Needs)
  : list (Step * Z) :=
  if (backgroundChange needs || sceneChange needs)
     && (given (background renderStream) || given (scene renderStream))
  then [(crossFadeStep, transitionDuration config * 2)]
  else [].

(** Every call of [delay] a call of [transition] makes. *)
Definition delays (renderStream : RenderStream)
    (history : RenderStreamHistory) : list (Step * Z) :=
  let transitionNeeds := analyzeTransitionNeeds renderStream history in
  (if enableSmoothTransition config
   then performSmoothTransition renderStream transitionNeeds else [])
  ++ (if enableCrossFade config
      then performCrossFade renderStream transitionNeeds else [])
  ++ [(finalStep, 100)].

End WithConfig.

Definition transition (renderStream : RenderStream)
    (history : RenderStreamHistory)
  : VirtualHumanController.Completion unit :=
  VirtualHumanController.Normal tt.

End TransitionModule.

(** ** VirtualHumanFactory *)

Module VirtualHumanFactory.

Import VirtualHumanController.

Section WithPlatform.

Variable toLowerCase : jsstring -> jsstring.

Definition segmentationModule : ModuleObj :=
  SegmentationM
    (fun text =>
       Normal (SegmentationModule.segment toLowerCase
                 SegmentationModule.defaultConfig text)).

Definition generationModule : ModuleObj :=
  GenerationM
    (fun e segment history =>
       Normal (GenerationModule.generate toLowerCase
                 GenerationModule.defaultConfig e segment history)).

Definition transitionModule : ModuleObj :=
  TransitionM TransitionModule.transition.

Definition createController (config : VirtualHumanConfig) : Controller :=
  registerModule "transition" transitionModule
    (registerModule "generation" generationModule
       (registerModule "segmentation" segmentationModule
          (VirtualHumanController.new config))).

Definition defaultConfig : VirtualHumanConfig :=
  {| enableSmartSegmentation := true;
     enableSeamlessTransition := false;
     enableEmotionAnalysis := true;
     vh_defaultExpression := lit "neutral";
     vh_defaultMotion := [lit "idle"];
     vh_defaultCamera := CamSmart |}.

Definition createDefaultController : Controller :=
  createController defaultConfig.

Definition highPerfConfig : VirtualHumanConfig :=
  {| enableSmartSegmentation := true;
     enableSeamlessTransition := true;
     enableEmotionAnalysis := true;
     vh_defaultExpression := lit "neutral";
     vh_defaultMotion := [lit "idle"];
     vh_defaultCamera := CamSmart |}.

Definition createHighPerformanceController : Controller :=
  createController highPerfConfig.

(** [customModules] in the order [Object.entries] lists them; the defaults
    it spreads [config] over are those of the high performance controller. *)
Definition createCustomController (config : PartialConfig)
    (customModules : list (string * ModuleObj)) : Controller :=
  let finalConfig := spread highPerfConfig config in
  List.fold_left (fun c nm => registerModule (fst nm) (snd nm) c)
    customModules (createController finalConfig).

End WithPlatform.

End VirtualHumanFactory.

(** ** CameraModeAdapter *)

Module CameraModeAdapter.

Import VirtualHumanController.

Record Adapter := mkAdapter {
  controller : Controller;
  isProcessing : bool;
  processedStreamIds : gset (option jsstring)
}.

(** The constructor attaches its three listeners to the controller. *)
Definition setupEventListeners (c : Controller) : Controller :=
  on "error" (on "stateChanged" (on "renderStreamReady" c)).

Definition new (c : Controller) : Adapter :=
  mkAdapter (setupEventListeners c) false ∅.

Definition destroy (a : Adapter) : Adapter :=
  mkAdapter (removeAllListeners (controller a)) false (processedStreamIds a).

(** The listener of [renderStreamReady], up to what it does to the adapter:
    a stream whose id was seen is skipped, another one has its id recorded
    before it is handed to the viewer. *)
Definition handleRenderStream (renderStream : RenderStream)
    (ids : gset (option jsstring)) : gset (option jsstring) :=
  if bool_decide (streamId renderStream ∈ ids) then ids
  else {[ streamId renderStream ]} ∪ ids.

Definition listen (ev : Event) (ids : gset (option jsstring))
  : gset (option jsstring) :=
  match ev with
  | renderStreamReady renderStream => handleRenderStream renderStream ids
  | _ => ids
  end.

Definition handleAIResponse (entropy : nat -> Entropy) (text : jsstring)
    (a : Adapter) : Adapter * Completion unit :=
  if isProcessing a then (a, Normal tt)
  else
    let ids :=
      if 100 <? Z.of_nat (size (processedStreamIds a)) then ∅
      else processedStreamIds a in
    let '(c', outcome) := processAIResponse entropy text (controller a) in
    (* the listener ran at every event of the call *)
    let emitted := List.skipn (List.length (trace (controller a))) (trace c') in
    let ids' := List.fold_left (fun ids ev => listen ev ids) emitted ids in
    (* [catch] and [finally] both reset the flag *)
    (mkAdapter c' false ids', outcome).

(** The members of [VRMExpressionPresetName] the adapter names. *)
Inductive VRMExpressionPresetName :=
| Happy | Angry | Sad | Surprised | Neutral.

(** The members of [MotionPresetName] the adapter names. *)
Inductive MotionPresetName :=
| FemaleGreeting | FemaleAppeal | FemaleAngry | FemaleStand | FemaleHappy
| FemaleCoverChest | Idle.

Definition expressionMap : gmap jsstring VRMExpressionPresetName :=
  list_to_map
    [ (lit "smile", Happy); (lit "happy", Happy); (lit "angry", Angry);
      (lit "sad", Sad); (lit "cry", Sad); (lit "surprised", Surprised);
      (lit "fear", Surprised); (lit "disgust", Angry);
      (lit "neutral", Neutral) ].

Definition mapExpressionToVRM (expression : jsstring)
  : Read VRMExpressionPresetName :=
  default (Value Neutral) (read expressionMap expression).

Definition motionMap : gmap jsstring MotionPresetName :=
  list_to_map
    [ (lit "wave", FemaleGreeting); (lit "dance", FemaleAppeal);
      (lit "fist", FemaleAngry); (lit "point", FemaleGreeting);
      (lit "head_down", FemaleStand); (lit "sigh", FemaleStand);
      (lit "cry", FemaleStand); (lit "wipe_tears", FemaleStand);
      (lit "jump", FemaleHappy); (lit "hands_up", FemaleHappy);
      (lit "shrink", FemaleStand); (lit "cover_face", FemaleCoverChest);
      (lit "turn_away", FemaleStand); (lit "cover_nose", FemaleStand);
      (lit "idle", Idle); (lit "look_around", Idle) ].

Definition mapMotionToVRM (motion : jsstring) : Read MotionPresetName :=
  default (Value Idle) (read motionMap motion).

End CameraModeAdapter.

(** ** SmartSentenceSegmenter, the accumulator of streamed content *)

Module SmartSentenceSegmenter.

Record Segmenter := mkSegmenter {
  sentenceBuffer : jsstring;
  lastProcessedContent : jsstring
}.

Definition new : Segmenter := mkSegmenter [] [].

Definition reset (s : Segmenter) : Segmenter := mkSegmenter [] [].

(** [.] of a regular expression without the [s] flag. *)
Definition isDot (c : N) : bool := negb (isLineTerminator c).

(** The class [[\n~。！．？]]. *)
Definition isStop (c : N) : bool :=
  (N.eqb c LF || N.eqb c TILDE || N.eqb c IDEOGRAPHIC_FULL_STOP
   || N.eqb c FULLWIDTH_EXCLAMATION || N.eqb c FULLWIDTH_FULL_STOP
   || N.eqb c FULLWIDTH_QUESTION)%N.

(** The class [[,、]]. *)
Definition isSoft (c : N) : bool :=
  (N.eqb c COMMA || N.eqb c IDEOGRAPHIC_COMMA)%N.

(** The length of the match of [.{min,}[stop]] at the start of a string of
    which [i] characters, all matched by [.], were read and [s] is left: the
    greedy [.{min,}] gives characters back until one of the class follows,
    so the match ends at the last character of the class that at least [min]
    characters matched by [.] precede. *)
Fixpoint matchEnd (min : nat) (stop : N -> bool) (i : nat) (s : jsstring)
  : option nat :=
  match s with
  | [] => None
  | c :: r =>
      match (if isDot c then matchEnd min stop (S i) r else None) with
      | Some n => Some n
      | None => if (min <=? i)%nat && stop c then Some (S i) else None
      end
  end.

(** [buffer.match(/^(.+[\n~。！．？]|.{10,}[,、])/)], the matched text. *)
Definition sentenceMatch (buffer : jsstring) : option jsstring :=
  match matchEnd 1 isStop 0 buffer with
  | Some n => Some (List.firstn n buffer)
  | None =>
      match matchEnd 10 isSoft 0 buffer with
      | Some n => Some (List.firstn n buffer)
      | None => None
      end
  end.

Definition extractCompleteSentences (s : Segmenter)
  : list jsstring * Segmenter :=
  match sentenceMatch (sentenceBuffer s) with
  | Some sentence =>
      if truthy sentence
      then ([sentence],
            mkSegmenter
              (trimStart (sliceFrom (List.length sentence) (sentenceBuffer s)))
              (lastProcessedContent s))
      else ([], s)
  | None => ([], s)
  end.

Definition processNewContent (content : jsstring) (s : Segmenter)
  : list jsstring * Segmenter :=
  if eqb content (lastProcessedContent s) then ([], s)
  else if len content <? len (lastProcessedContent s)
  then ([], mkSegmenter [] content)
  else
    let newContent :=
      sliceFrom (List.length (lastProcessedContent s)) content in
    if len newContent =? 0 then ([], s)
    else
      extractCompleteSentences
        (mkSegmenter (sentenceBuffer s ++ newContent) content).

Definition getRemainingText (s : Segmenter) : jsstring := sentenceBuffer s.

End SmartSentenceSegmenter.

(** ** Vocabulary of the statements *)

Module Props.

Import VirtualHumanController.

(** The operations on the history store. *)
Inductive HistoryOp :=
| opAdd (stream : RenderStream)
| opClear.

Definition applyOp (h : RenderStreamHistory) (op : HistoryOp)
  : RenderStreamHistory :=
  match op with
  | opAdd stream => addToHistory_ stream h
  | opClear => clearHistory_ h
  end.

Definition runOps (ops : list HistoryOp) (h : RenderStreamHistory)
  : RenderStreamHistory :=
  List.fold_left applyOp ops h.

(** The streams appended since the last [opClear], oldest first. *)
Definition appended (ops : list HistoryOp) : list RenderStream :=
  List.fold_left
    (fun acc op => match op with opAdd s => acc ++ [s] | opClear => [] end)
    ops [].

(** The camera rule in the words of the design document: emphasis, then the
    emotion, then the camera of the most recent entry of the history unless
    it is the empty mode, then the default. *)
Definition cameraRule (defaultCamera : CameraMode) (segment : SentenceSegment)
    (history : RenderStreamHistory) : CameraMode :=
  if bool_decide (seg_emphasis segment = Some true) then CamTrackCloseUp
  else if bool_decide (seg_emotion segment ∈ [Some (lit "surprised"); Some (lit "fear")])
  then CamTrackFront
  else if bool_decide (seg_emotion segment ∈ [Some (lit "sad"); Some (lit "cry")])
  then CamTrackBack
  else
    match last (streams history) with
    | Some mostRecent =>
        match camera mostRecent with
        | Some mode => if bool_decide (mode = CamNone) then defaultCamera else mode
        | None => defaultCamera
        end
    | None => defaultCamera
    end.

(** What the operations keep true of the store, [l] being the streams
    appended since the last clear. *)
Definition historyInv (l : list RenderStream) (h : RenderStreamHistory) : Prop :=
  maxHistory h = 50 /\
  streams h = sliceLast 50 l /\
  currentIndex h = Z.of_nat (List.length (streams h)) - 1.

(** The texts of the segments, put end to end. *)
Definition texts (segments : list SentenceSegment) : jsstring :=
  List.concat (List.map seg_text segments).







(** The greeting of the design document: 你好！我很开心见到你。 *)
Definition greeting : jsstring :=
  [0x4F60; 0x597D; 0xFF01; 0x6211; 0x5F88; 0x5F00; 0x5FC3; 0x89C1; 0x5230;
   0x4F60; 0x3002]%N.


(** A text that begins with a full stop: 。你好 *)
Definition leadingStop : jsstring := [0x3002; 0x4F60; 0x597D]%N.

Definition isErrorEvent (ev : Event) : bool :=
  match ev with error _ _ => true | _ => false end.

Definition entersTransitioningOrRendering (ev : Event) : bool :=
  match ev with
  | stateChanged _ TRANSITIONING | stateChanged _ RENDERING => true
  | _ => false
  end.

(** The streams the default modules generate for [segments], from index [i]
    on, each one from the history that holds the ones before it. *)
Fixpoint generated (toLowerCase : jsstring -> jsstring)
    (entropy : nat -> Entropy) (i : nat) (segments : list SentenceSegment)
    (h : RenderStreamHistory) : list RenderStream :=
  match segments with
  | [] => []
  | segment :: rest =>
      let stream :=
        GenerationModule.generate toLowerCase GenerationModule.defaultConfig
          (entropy i) segment h in
      stream :: generated toLowerCase entropy (S i) rest (addToHistory_ stream h)
  end.

Definition appendAll (rss : list RenderStream) (h : RenderStreamHistory)
  : RenderStreamHistory :=
  List.fold_left (fun h rs => addToHistory_ rs h) rss h.

(** The streams of the [renderStreamReady] events, in order. *)
Fixpoint readyStreams (events : list Event) : list RenderStream :=
  match events with
  | [] => []
  | renderStreamReady rs :: rest => rs :: readyStreams rest
  | _ :: rest => readyStreams rest
  end.

(** [c'] comes from [c] by code that leaves the configuration, the modules,
    the timers and the listeners alone and emits [news], none of them an
    [error]. *)
Definition framed (c c' : Controller) (news : list Event) : Prop :=
  config c' = config c /\
  modules c' = modules c /\
  timers c' = timers c /\
  listeners c' = listeners c /\
  trace c' = trace c ++ news /\
  List.Forall (fun ev => isErrorEvent ev = false) news.

(** [news], the events since [c], ends where the controller entered
    [TRANSITIONING] for the stream [rs], on which the transition module threw
    [e]: the streams appended to the history since [c] are the streams
    announced in [news], in that order, and then [rs], which was not. *)
Definition failedInTransition (e : JsError) (c c' : Controller)
    (news : list Event) : Prop :=
  exists pre old rs module,
    news = pre ++ [stateChanged old TRANSITIONING] /\
    history c' = appendAll (readyStreams pre ++ [rs]) (history c) /\
    getModule "transition" c' = Some module /\
    callTransition module rs (history c') = Throw e.

(** The claim that the context of an [error] event carries the id of the
    stream [rs]. *)
Definition errorContextCarriesId (c' : Controller) (rs : RenderStream) : Prop :=
  exists e context id,
    List.In (error e context) (trace c') /\
    streamId rs = Some id /\
    includes context id = true.

(** The prefix of length [n] of [i] characters matched by [.] followed by
    [s] matches [.{min,}[stop]]. *)
Definition matchesFrom (min : nat) (stop : N -> bool) (i : nat) (s : jsstring)
    (n : nat) : Prop :=
  exists body c rest,
    s = body ++ c :: rest /\
    List.Forall (fun d => SmartSentenceSegmenter.isDot d = true) body /\
    stop c = true /\
    (min <= i + List.length body)%nat /\
    n = S (i + List.length body).

Definition matchesAt (min : nat) (stop : N -> bool) (buffer : jsstring)
    (n : nat) : Prop :=
  matchesFrom min stop 0 buffer n.

Definition longestMatch (min : nat) (stop : N -> bool) (buffer : jsstring)
    (n : nat) : Prop :=
  matchesAt min stop buffer n /\
  forall m, matchesAt min stop buffer m -> (m <= n)%nat.

(** [n] is the length of the match of the sentence rule at the start of the
    buffer: the longest match of [.+[\n~。！．？]], or, when there is none, the
    longest match of [.{10,}[,、]]. *)
Definition ruleLength (buffer : jsstring) (n : nat) : Prop :=
  longestMatch 1 SmartSentenceSegmenter.isStop buffer n \/
  ((forall m, ~ matchesAt 1 SmartSentenceSegmenter.isStop buffer m) /\
   longestMatch 10 SmartSentenceSegmenter.isSoft buffer n).

(** Two lines in one chunk: 你好。 newline 我好。 *)
Definition twoLines : jsstring :=
  [0x4F60; 0x597D; 0x3002; 0x0A; 0x6211; 0x597D; 0x3002]%N.

(** Sample data. *)
Definition entropy0 : Entropy :=
  mkEntropy (1 # 2) 1700 1701 (lit "k3j9x0q2a").

Definition streamWithCamera (X : CameraMode) : RenderStream :=
  {| audio := None; background := None; camera := Some X; expression := None;
     motion := None; scene := None; streamId := None; text := None;
     timestamp := None |}.

Definition neutralSegment (text : jsstring) : SentenceSegment :=
  mkSegment (Some (lit "neutral")) (Some false) (Some 0) text.

(** An adapter in the middle of a call. *)
Definition busyAdapter : CameraModeAdapter.Adapter :=
  CameraModeAdapter.mkAdapter
    (CameraModeAdapter.setupEventListeners
       (VirtualHumanFactory.createDefaultController lowerASCII)) true ∅.

(** What the failing transition throws. *)
Definition transitionFailed : JsError := Thrown "transition failed".

(** A transition module whose sub-transitions throw. *)
Definition failingTransition : ModuleObj :=
  TransitionM (fun _ _ => Throw transitionFailed).

(** [createCustomController({}, { transition: failingTransition })], as the
    factory returns it: no listener is attached. *)
Definition failingController : Controller :=
  VirtualHumanFactory.createCustomController lowerASCII
    (mkPartialConfig None None None None None None)
    [("transition", failingTransition)].

(** The same controller, handed to an adapter, whose constructor attaches
    a listener to [error]. *)
Definition watchedFailingController : Controller :=
  CameraModeAdapter.controller (CameraModeAdapter.new failingController).

(** The streams [generateRenderStream] makes of [segments], one after the
    other from index [i], each from the history that holds the ones before
    it, up to the first segment on which it throws; [c] gives the modules
    and the configuration. *)
Fixpoint streamsOf (entropy : nat -> Entropy) (c : Controller) (i : nat)
    (segments : list SentenceSegment) (h : RenderStreamHistory)
  : list RenderStream :=
  match segments with
  | [] => []
  | segment :: rest =>
      match snd (generateRenderStream (entropy i) segment (with_history h c)) with
      | Normal rs => rs :: streamsOf entropy c (S i) rest (addToHistory_ rs h)
      | Throw _ => []
      end
  end.

(** The segments [segmentText] gives, none when it throws. *)
Definition segmentsOf (text : jsstring) (c : Controller)
  : list SentenceSegment :=
  match snd (segmentText text c) with
  | Normal segments => segments
  | Throw _ => []
  end.

(** The sum of the pauses of the segments. *)
Definition pauses (segments : list SentenceSegment) : Z :=
  List.fold_right (fun segment sum => default 0 (seg_pause segment) + sum) 0
    segments.

(** No character of index [minLength - 1] or more of [piece], its last one
    apart, is a mark: [piece] was not cut later than it could be. *)
Definition cutAtFirstMark (config : SegmentationModule.Config)
    (piece : jsstring) : Prop :=
  forall before mark after,
    piece = before ++ mark :: after -> after <> [] ->
    SegmentationModule.minSegmentLength config <= len (before ++ [mark]) ->
    SegmentationModule.isMark config mark = false.

(** The events of one turn of the loop with the transition module of the
    factory, entered in state [before]. *)
Definition turnEvents (seamless : bool) (before : RenderStreamState)
    (rs : RenderStream) : list Event :=
  if seamless
  then [stateChanged before TRANSITIONING;
        stateChanged TRANSITIONING RENDERING;
        renderStreamReady rs]
  else [renderStreamReady rs].

Definition stateAfterTurn (seamless : bool) (before : RenderStreamState)
  : RenderStreamState :=
  if seamless then RENDERING else before.

Fixpoint loopEvents (seamless : bool) (before : RenderStreamState)
    (rss : list RenderStream) : list Event :=
  match rss with
  | [] => []
  | rs :: rest =>
      turnEvents seamless before rs
      ++ loopEvents seamless (stateAfterTurn seamless before) rest
  end.

Definition stateAfterLoop (seamless : bool) (before : RenderStreamState)
    (rss : list RenderStream) : RenderStreamState :=
  match rss with
  | [] => before
  | _ :: _ => stateAfterTurn seamless before
  end.

(** The stream the controller builds itself when no generation module is
    registered. *)
Definition fallbackStream (config : VirtualHumanConfig) (e : Entropy)
    (text : jsstring) : RenderStream :=
  {| text := Some text;
     expression := Some (Value (lit "neutral"));
     motion := Some (List.map Some (vh_defaultMotion config));
     camera := Some (vh_defaultCamera config);
     timestamp := Some (now_timestamp e);
     streamId := Some (GenerationModule.generateStreamId e);
     audio := None; scene := None; background := None |}.

(** The contents handed to the accumulator one after the other, and what it
    returns, put end to end. *)
Fixpoint feed (contents : list jsstring) (s : SmartSentenceSegmenter.Segmenter)
  : list jsstring * SmartSentenceSegmenter.Segmenter :=
  match contents with
  | [] => ([], s)
  | content :: rest =>
      let '(out, s1) := SmartSentenceSegmenter.processNewContent content s in
      let '(outs, s2) := feed rest s1 in
      (out ++ outs, s2)
  end.

(** Each content is the one before it with more text at its end. *)
Fixpoint growing (previous : jsstring) (contents : list jsstring) : Prop :=
  match contents with
  | [] => True
  | content :: rest =>
      (exists more, content = previous ++ more) /\ growing content rest
  end.

(** A string the accumulator emits: characters of one line, then a stop, or
    ten or more characters of one line, then a soft separator. *)
Definition completeSentence (sentence : jsstring) : Prop :=
  exists body last,
    sentence = body ++ [last] /\
    body <> [] /\
    List.Forall (fun c => isLineTerminator c = false) body /\
    (SmartSentenceSegmenter.isStop last = true \/
     (SmartSentenceSegmenter.isSoft last = true /\ (10 <= List.length body)%nat)).

(** The emotions of the default keyword table and of the punctuation rule. *)
Definition pipelineEmotions : list jsstring :=
  [lit "happy"; lit "angry"; lit "sad"; lit "cry"; lit "surprised";
   lit "fear"; lit "disgust"; lit "neutral"].

(** The keywords [determineScene] looks for. *)
Definition sceneKeywords : list jsstring :=
  [ [0x529E; 0x516C; 0x5BA4]%N; [0x5DE5; 0x4F5C]%N; [0x5BB6]%N;
    [0x623F; 0x95F4]%N; [0x516C; 0x56ED]%N; [0x6237; 0x5916]%N;
    [0x821E; 0x53F0]%N; [0x8868; 0x6F14]%N ].

Definition streamWithScene (name : jsstring) : RenderStream :=
  {| audio := None; background := None; camera := None; expression := None;
     motion := None; scene := Some name; streamId := None; text := None;
     timestamp := None |}.

(** The configuration keeps the two switches the pipeline reads. *)
Definition keepsSwitches (partial : PartialConfig) : Prop :=
  p_enableSeamlessTransition partial = None /\
  p_enableSmartSegmentation partial = None.

(** A greeting and a newline before it. *)
Definition leadingNewline : jsstring := [0x0A; 0x4F60; 0x597D; 0x3002]%N.

(** A controller whose modules were cleared. *)
Definition destroyedController : Controller :=
  destroy (VirtualHumanFactory.createDefaultController lowerASCII).

End Props.

(** * Properties *)

(** ** The history store *)

Section History.

Import VirtualHumanController Props.

Lemma sliceLast_length {A} (n : nat) (l : list A) :
  List.length (sliceLast n l) = Nat.min n (List.length l).
Proof. unfold sliceLast. rewrite List.length_skipn. lia. Qed.

Lemma sliceLast_snoc_keep {A} (n : nat) (l : list A) (x : A) :
  (List.length l < n)%nat -> sliceLast n (l ++ [x]) = sliceLast n l ++ [x].
Proof.
  intros H. unfold sliceLast. rewrite List.length_app. simpl.
  replace (List.length l + 1 - n)%nat with 0%nat by lia.
  replace (List.length l - n)%nat with 0%nat by lia. reflexivity.
Qed.

Lemma sliceLast_snoc_evict {A} (n : nat) (l : list A) (x : A) :
  (0 < n <= List.length l)%nat ->
  sliceLast n (l ++ [x]) = List.tl (sliceLast n l ++ [x]).
Proof.
  intros H. unfold sliceLast. rewrite List.length_app. simpl.
  replace (List.length l + 1 - n)%nat with (S (List.length l - n)) by lia.
  set (m := (List.length l - n)%nat).
  assert (Hm : (m < List.length l)%nat) by (unfold m; lia).
  clearbody m. clear H. revert m Hm.
  induction l as [|a l IH]; intros m Hm; simpl in Hm; [lia|].
  destruct m as [|m].
  - reflexivity.
  - change (List.skipn (S m) (l ++ [x]) = List.tl (List.skipn m l ++ [x])).
    apply IH. lia.
Qed.

Lemma addToHistory_inv l h s :
  historyInv l h -> historyInv (l ++ [s]) (addToHistory_ s h).
Proof.
  intros (Hmax & Hs & Hi). unfold historyInv, addToHistory_. rewrite Hmax.
  assert (Hlen : List.length (streams h ++ [s])
                 = (Nat.min 50 (List.length l) + 1)%nat).
  { rewrite List.length_app, Hs, sliceLast_length. reflexivity. }
  destruct (Z.ltb_spec 50 (Z.of_nat (List.length (streams h ++ [s]))))
    as [Hlt|Hle]; cbn [streams maxHistory currentIndex].
  - assert (Hfull : (50 <= List.length l)%nat) by lia.
    rewrite sliceLast_snoc_evict by lia. rewrite <- Hs.
    split; [reflexivity|]. split; [reflexivity|].
    destruct (streams h ++ [s]) as [|x xs] eqn:E; cbn [List.tl List.length] in *; lia.
  - assert (Hroom : (List.length l < 50)%nat) by lia.
    rewrite sliceLast_snoc_keep by lia. rewrite <- Hs.
    split; [reflexivity|]. split; [reflexivity|]. lia.
Qed.

Lemma runOps_inv ops :
  historyInv (appended ops) (runOps ops (history (new VirtualHumanFactory.defaultConfig))).
Proof.
  unfold runOps, appended.
  induction ops as [|op ops IH] using List.rev_ind.
  - simpl. repeat split.
  - rewrite !List.fold_left_app. simpl. destruct op as [s|]; simpl.
    + apply addToHistory_inv, IH.
    + destruct IH as (Hmax & _ & _). unfold historyInv, clearHistory_. simpl.
      repeat split. exact Hmax.
Qed.

(** C5. After every sequence of [addToHistory] and [clearHistory] on the
    history of a new controller, the store holds at most [maxHistory] = 50
    streams; they are the last 50 of the streams appended since the last
    clear, in the order they were appended (so exactly 50 of them once more
    than 50 were appended); and [currentIndex] is the index of the last
    stream, which is -1 when the store is empty. *)
Theorem history_bounded_fifo (ops : list HistoryOp) :
  let h := runOps ops (history (new VirtualHumanFactory.defaultConfig)) in
  maxHistory h = 50 /\
  Z.of_nat (List.length (streams h)) <= maxHistory h /\
  streams h = sliceLast 50 (appended ops) /\
  (50 < List.length (appended ops) -> List.length (streams h) = 50)%nat /\
  currentIndex h = Z.of_nat (List.length (streams h)) - 1 /\
  (streams h = [] -> currentIndex h = -1).
Proof.
  intros h. destruct (runOps_inv ops) as (Hmax & Hs & Hi). fold h in Hmax, Hs, Hi.
  assert (Hlen : List.length (streams h) = Nat.min 50 (List.length (appended ops))).
  { rewrite Hs. apply sliceLast_length. }
  repeat split; try assumption.
  - rewrite Hmax, Hlen. lia.
  - intros. rewrite Hlen. lia.
  - intros E. rewrite Hi, E. reflexivity.
Qed.

End History.

(** ** Strings *)

Section Strings.

Lemma take_drop_while (p : N -> bool) (s : jsstring) :
  takeWhile p s ++ dropWhile p s = s.
Proof.
  induction s as [|c r IH]; simpl; [reflexivity|].
  destruct (p c); simpl; [now rewrite IH | reflexivity].
Qed.

Lemma dropWhile_idem (p : N -> bool) (s : jsstring) :
  dropWhile p (dropWhile p s) = dropWhile p s.
Proof.
  induction s as [|c r IH]; simpl; [reflexivity|].
  destruct (p c) eqn:E; [exact IH|]. simpl. now rewrite E.
Qed.

Lemma dropWhile_length (p : N -> bool) (s : jsstring) :
  (List.length (dropWhile p s) <= List.length s)%nat.
Proof.
  induction s as [|c r IH]; simpl; [lia|]. destruct (p c); simpl; lia.
Qed.



Lemma nonWhite_app (a b : jsstring) : nonWhite (a ++ b) = nonWhite a ++ nonWhite b.
Proof. apply List.filter_app. Qed.

Lemma nonWhite_rev (s : jsstring) : nonWhite (List.rev s) = List.rev (nonWhite s).
Proof.
  unfold nonWhite. induction s as [|c r IH]; simpl; [reflexivity|].
  rewrite List.filter_app, IH. simpl.
  destruct (isWhiteSpace c); simpl; [now rewrite List.app_nil_r | reflexivity].
Qed.

Lemma nonWhite_trimStart (s : jsstring) : nonWhite (trimStart s) = nonWhite s.
Proof.
  unfold trimStart, nonWhite. induction s as [|c r IH]; simpl; [reflexivity|].
  destruct (isWhiteSpace c) eqn:E; simpl; [exact IH | now rewrite E].
Qed.

Lemma nonWhite_trimEnd (s : jsstring) : nonWhite (trimEnd s) = nonWhite s.
Proof.
  unfold trimEnd. rewrite nonWhite_rev.
  change (dropWhile isWhiteSpace (List.rev s)) with (trimStart (List.rev s)).
  rewrite nonWhite_trimStart, nonWhite_rev. apply List.rev_involutive.
Qed.

Lemma nonWhite_trim (s : jsstring) : nonWhite (trim s) = nonWhite s.
Proof. unfold trim. now rewrite nonWhite_trimEnd, nonWhite_trimStart. Qed.

End Strings.

(** ** SegmentationModule *)

Section Segmentation.

Import SegmentationModule Props.

Variable toLowerCase : jsstring -> jsstring.
Variable config : Config.


Lemma matchAll_S (fuel : nat) (text : jsstring) :
  matchAll (S fuel) text =
  match dropWhile isHardBoundary text with
  | [] => []
  | start =>
      (takeWhile (fun c => negb (isHardBoundary c)) start
       ++ takeWhile isHardBoundary
            (dropWhile (fun c => negb (isHardBoundary c)) start))
      :: matchAll fuel
           (dropWhile isHardBoundary
              (dropWhile (fun c => negb (isHardBoundary c)) start))
  end.
Proof. reflexivity. Qed.

Lemma dropWhile_head (p : N -> bool) (s r : jsstring) (c : N) :
  dropWhile p s = c :: r -> p c = false.
Proof.
  induction s as [|a s IH]; simpl; [discriminate|].
  destruct (p a) eqn:Ea; [exact IH|]. congruence.
Qed.

(** The matches, put end to end, are the text from its first character
    outside the class on. *)
Lemma matchAll_concat (fuel : nat) :
  forall text, (List.length text <= fuel)%nat ->
  List.concat (matchAll fuel text) = dropWhile isHardBoundary text.
Proof.
  induction fuel as [|fuel IH]; intros text Hlen.
  - destruct text; [reflexivity | simpl in Hlen; lia].
  - rewrite matchAll_S.
    pose proof (dropWhile_length isHardBoundary text) as Hstart.
    destruct (dropWhile isHardBoundary text) as [|c start] eqn:E; [reflexivity|].
    apply dropWhile_head in E.
    set (notHard := fun c => negb (isHardBoundary c)).
    assert (Hrest : (List.length (dropWhile notHard (c :: start))
                     <= List.length start)%nat).
    { simpl. unfold notHard at 1. rewrite E. simpl.
      apply dropWhile_length. }
    remember (c :: start) as st eqn:Est.
    cbn [List.concat]. rewrite IH.
    + rewrite dropWhile_idem, <- List.app_assoc.
      rewrite (take_drop_while isHardBoundary), (take_drop_while notHard).
      reflexivity.
    + pose proof (dropWhile_length isHardBoundary (dropWhile notHard st)).
      subst st. simpl in Hstart. lia.
Qed.

Lemma nonWhite_sentences (ms : list jsstring) :
  nonWhite (List.concat (List.filter (fun s => 0 <? len s) (List.map trim ms)))
  = nonWhite (List.concat ms).
Proof.
  induction ms as [|m ms IH]; [reflexivity|].
  cbn [List.map List.filter List.concat]. rewrite nonWhite_app, <- IH, <- (nonWhite_trim m).
  destruct (trim m) as [|c r] eqn:E.
  - reflexivity.
  - replace (0 <? len (c :: r)) with true.
    + cbn [List.concat]. now rewrite nonWhite_app.
    + symmetry. apply Z.ltb_lt. unfold len. simpl. lia.
Qed.

Lemma nonWhite_splitIntoSentences (text : jsstring) :
  nonWhite (List.concat (splitIntoSentences text))
  = nonWhite (dropWhile isHardBoundary text).
Proof.
  unfold splitIntoSentences.
  rewrite nonWhite_sentences, matchAll_concat by lia. reflexivity.
Qed.

Lemma nonWhite_splitLongLoop (emotion : jsstring) (words : list N) :
  forall currentSegment,
  nonWhite (texts (splitLongLoop config emotion words currentSegment))
  = nonWhite (currentSegment ++ words).
Proof.
  unfold texts.
  induction words as [|word words IH]; intros cur; simpl.
  - rewrite List.app_nil_r.
    destruct (trim cur) eqn:E; simpl.
    + rewrite <- (nonWhite_trim cur), E. reflexivity.
    + now rewrite List.app_nil_r.
  - destruct (isMark config word && (minSegmentLength config <=? len (cur ++ [word])));
      simpl.
    + rewrite nonWhite_app, (IH []). simpl.
      rewrite <- nonWhite_app, <- List.app_assoc. reflexivity.
    + rewrite IH, <- List.app_assoc. reflexivity.
Qed.

Lemma nonWhite_segmentSentence (sentence : jsstring) :
  nonWhite (texts (segmentSentence toLowerCase config sentence))
  = nonWhite sentence.
Proof.
  unfold SegmentationModule.segmentSentence.
  destruct (maxSegmentLength config <? len sentence).
  - apply (nonWhite_splitLongLoop _ sentence []).
  - unfold texts. simpl. now rewrite List.app_nil_r.
Qed.

Lemma texts_app (a b : list SentenceSegment) : texts (a ++ b) = texts a ++ texts b.
Proof. unfold texts. now rewrite List.map_app, List.concat_app. Qed.

(** C4 (amended). Whatever the text, the texts of the segments of
    [segment(text)], put end to end and white space ignored, are the
    characters of the text that are not white space, in their order, less
    the hard boundary characters the text begins with.  So nothing is
    duplicated, and nothing is lost of a text that begins with none of
    。！？； . *)
Theorem segment_keeps_text (text : jsstring) :
  nonWhite (texts (segment toLowerCase config text))
  = nonWhite (dropWhile isHardBoundary text).
Proof.
  rewrite <- nonWhite_splitIntoSentences.
  unfold SegmentationModule.segment.
  induction (splitIntoSentences text) as [|s ss IH]; [reflexivity|].
  cbn [List.flat_map List.concat].
  rewrite texts_app, !nonWhite_app, IH, nonWhite_segmentSentence. reflexivity.
Qed.

Lemma dropWhile_all (p : N -> bool) (s : jsstring) :
  List.Forall (fun c => p c = true) s -> dropWhile p s = [].
Proof. induction 1 as [|c r Hc _ IH]; simpl; [reflexivity|]. now rewrite Hc. Qed.













End Segmentation.

(** What [segment] does on three texts. *)

Section SegmentationExamples.

Import SegmentationModule Props.

(** The greeting gives two segments: 你好！ , surprised, emphasized, with a
    pause of 300, and 我很开心见到你。 , happy by its keyword, with a pause
    of 500. *)
Example segment_greeting :
  segment lowerASCII defaultConfig greeting =
  [ mkSegment (Some (lit "surprised")) (Some true) (Some 300)
      [0x4F60; 0x597D; 0xFF01]%N;
    mkSegment (Some (lit "happy")) (Some false) (Some 500)
      [0x6211; 0x5F88; 0x5F00; 0x5FC3; 0x89C1; 0x5230; 0x4F60; 0x3002]%N ].
Proof. reflexivity. Qed.



(** C4, as stated, fails: the full stop a text begins with is in no
    segment. *)
Lemma segment_drops_leading_boundary :
  List.map seg_text (segment lowerASCII defaultConfig leadingStop)
  = [[0x4F60; 0x597D]%N] /\
  nonWhite (texts (segment lowerASCII defaultConfig leadingStop))
  <> nonWhite leadingStop.
Proof. split; [reflexivity | vm_compute; discriminate]. Qed.

End SegmentationExamples.

(** ** GenerationModule *)

Section Generation.

Import GenerationModule Props.

Variable toLowerCase : jsstring -> jsstring.
Variable config : Config.

Lemma at_index_snoc {A} (m : list A) (x : A) :
  at_index (m ++ [x]) (Z.of_nat (List.length (m ++ [x])) - 1) = Some x.
Proof.
  unfold at_index. rewrite List.length_app. simpl.
  replace (Z.of_nat (List.length m + 1) - 1 <? 0) with false
    by (symmetry; apply Z.ltb_ge; lia).
  replace (Z.to_nat (Z.of_nat (List.length m + 1) - 1)) with (List.length m) by lia.
  rewrite List.nth_error_app2 by lia. now rewrite Nat.sub_diag.
Qed.

(** The last of the last [n] entries is the last entry. *)
Lemma at_index_sliceLast {A} (n : nat) (l : list A) :
  (0 < n)%nat ->
  at_index (sliceLast n l) (Z.of_nat (List.length (sliceLast n l)) - 1) = last l.
Proof.
  intros Hn. destruct l as [|x l _] using List.rev_ind.
  - reflexivity.
  - rewrite last_snoc. unfold sliceLast. rewrite List.length_app. simpl.
    rewrite List.skipn_app.
    replace (List.length l + 1 - n - List.length l)%nat with 0%nat by lia.
    apply at_index_snoc.
Qed.

Lemma bool_decide_pair {A} `{EqDecision A} (x a b : A) :
  bool_decide (x ∈ [a; b]) = bool_decide (x = a) || bool_decide (x = b).
Proof.
  destruct (decide (x = a)) as [->|Ha].
  - rewrite (bool_decide_eq_true_2 (a = a)) by reflexivity.
    apply bool_decide_eq_true_2. left.
  - rewrite (bool_decide_eq_false_2 (x = a)) by assumption. simpl.
    apply bool_decide_ext. rewrite !elem_of_cons, elem_of_nil. tauto.
Qed.

Lemma determineCameraMode_rule (segment : SentenceSegment)
    (history : RenderStreamHistory) :
  determineCameraMode config segment history
  = cameraRule (defaultCamera config) segment history.
Proof.
  unfold determineCameraMode, cameraRule.
  rewrite !bool_decide_pair, at_index_sliceLast by lia.
  destruct (bool_decide (seg_emphasis segment = Some true)); [reflexivity|].
  destruct (_ || _); [reflexivity|]. destruct (_ || _); [reflexivity|].
  destruct (last (streams history)) as [s|]; [|reflexivity].
  destruct (camera s) as [c|]; [|reflexivity].
  destruct c; reflexivity.
Qed.

(** C7. The camera of [generate] follows the priority order: an emphasized
    segment gets the close-up tracking, else the emotions surprised and
    fear the front tracking, else sad and cry the back tracking, else the
    camera of the most recent entry of the history when it has one that is
    not the empty mode, else the default camera.  In particular, after two
    entries of camera [X], not the empty mode, a neutral segment without
    emphasis gets [X]. *)
Theorem generate_camera_priority (e : Entropy) (segment : SentenceSegment)
    (history : RenderStreamHistory) :
  camera (generate toLowerCase config e segment history)
  = Some (cameraRule (defaultCamera config) segment history) /\
  (forall A B X index capacity,
      X <> CamNone -> camera A = Some X -> camera B = Some X ->
      seg_emphasis segment = Some false ->
      seg_emotion segment = Some (lit "neutral") ->
      camera (generate toLowerCase config e segment
                (mkHistory index capacity [A; B])) = Some X).
Proof.
  split.
  - cbn [generate camera]. now rewrite determineCameraMode_rule.
  - intros A B X index capacity HX HA HB Hemph Hemo.
    cbn [generate camera]. rewrite determineCameraMode_rule.
    unfold cameraRule. rewrite Hemph, Hemo. cbn [streams last]. rewrite HB.
    rewrite !bool_decide_eq_false_2.
    + reflexivity.
    + exact HX.
    + rewrite !elem_of_cons, elem_of_nil. vm_compute. intuition discriminate.
    + rewrite !elem_of_cons, elem_of_nil. vm_compute. intuition discriminate.
    + discriminate.
Qed.

(** C8. Two runs of [generate] on the same segment and the same history,
    whatever the clock and the random source give each, agree on the
    expression, the camera, the scene and the background (and on the text
    and the audio); the motion is the channel that may differ: for a happy
    segment the draws 0 and 1/2 pick "wave" and "dance". *)
Theorem generate_deterministic_but_motion (e1 e2 : Entropy)
    (segment : SentenceSegment) (history : RenderStreamHistory) :
  let r1 := generate toLowerCase config e1 segment history in
  let r2 := generate toLowerCase config e2 segment history in
  (expression r1 = expression r2 /\
   camera r1 = camera r2 /\
   scene r1 = scene r2 /\
   background r1 = background r2 /\
   text r1 = text r2 /\
   audio r1 = audio r2) /\
  (let happy := mkSegment (Some (lit "happy")) (Some false) (Some 0) (lit "hi") in
   let draw q := mkEntropy q (now_timestamp e1) (now_id e1) (rand_id e1) in
   motion (generate toLowerCase defaultConfig (draw 0%Q) happy history)
     = Some [Some (lit "wave")] /\
   motion (generate toLowerCase defaultConfig (draw (1 # 2)%Q) happy history)
     = Some [Some (lit "dance")]).
Proof. repeat split. Qed.

End Generation.

Section GenerationExamples.

Import GenerationModule Props.

Lemma generate_camera_priority_witness :
  camera (generate lowerASCII defaultConfig entropy0 (neutralSegment (lit "ok"))
            (mkHistory 1 50 [streamWithCamera CamTrackBack;
                             streamWithCamera CamTrackBack]))
  = Some CamTrackBack.
Proof.
  refine (proj2 (generate_camera_priority lowerASCII defaultConfig entropy0
                   (neutralSegment (lit "ok")) (mkHistory (-1) 50 []))
                (streamWithCamera CamTrackBack) (streamWithCamera CamTrackBack)
                CamTrackBack 1 50 _ _ _ _ _);
    (reflexivity || discriminate).
Defined.

End GenerationExamples.

(** ** VirtualHumanController *)

Section Controller.

Import VirtualHumanController Props.

Variable entropy : nat -> Entropy.

Lemma framed_refl c : framed c c [].
Proof. unfold framed. rewrite List.app_nil_r. repeat split. constructor. Qed.

Lemma framed_trans c c1 c2 n1 n2 :
  framed c c1 n1 -> framed c1 c2 n2 -> framed c c2 (n1 ++ n2).
Proof.
  intros (Hc & Hm & Ht & Hl & Hn & Hf) (Hc' & Hm' & Ht' & Hl' & Hn' & Hf').
  unfold framed.
  rewrite Hc', Hm', Ht', Hl', Hn', Hn, Hc, Hm, Ht, Hl, List.app_assoc.
  repeat split. apply List.Forall_app. split; assumption.
Qed.

Lemma framed_emit ev c :
  isErrorEvent ev = false -> framed c (emit_ ev c) [ev].
Proof. intros H. unfold framed. simpl. repeat split. repeat constructor. exact H. Qed.

Lemma framed_setState s c : framed c (setState_ s c) [stateChanged (state c) s].
Proof. unfold framed. simpl. repeat split. repeat constructor. Qed.

Lemma framed_history h c : framed c (with_history h c) [].
Proof. unfold framed. simpl. rewrite List.app_nil_r. repeat split. constructor. Qed.

(** An event that is not an [error] is dispatched, listeners or not. *)
Lemma emit_dispatches ev c :
  isErrorEvent ev = false -> emit ev c = (emit_ ev c, Normal tt).
Proof. destruct ev; (reflexivity || discriminate). Qed.

Lemma readyStreams_app (a b : list Event) :
  readyStreams (a ++ b) = readyStreams a ++ readyStreams b.
Proof.
  induction a as [|ev a IH]; [reflexivity|].
  destruct ev; cbn [app readyStreams]; rewrite IH; reflexivity.
Qed.

Lemma appendAll_app (rss1 rss2 : list RenderStream) (h : RenderStreamHistory) :
  appendAll (rss1 ++ rss2) h = appendAll rss2 (appendAll rss1 h).
Proof. apply List.fold_left_app. Qed.

Lemma segmentText_fst text c : fst (segmentText text c) = c.
Proof.
  unfold segmentText, bind, get, await, throw, ret.
  destruct (getModule "segmentation" c) as [[]|];
    destruct (enableSmartSegmentation (config c)); reflexivity.
Qed.

Lemma generateRenderStream_fst e segment c :
  fst (generateRenderStream e segment c) = c.
Proof.
  unfold generateRenderStream, bind, get, await, throw, ret.
  destruct (getModule "generation" c) as [[]|]; reflexivity.
Qed.

Lemma triggerSeamlessTransition_cases rs c :
  triggerSeamlessTransition rs c =
  if negb (enableSeamlessTransition (config c))
  then (emit_ (renderStreamReady rs) c, Normal tt)
  else
    match getModule "transition" c with
    | Some module =>
        match callTransition module rs (history c) with
        | Normal _ =>
            (emit_ (renderStreamReady rs)
               (setState_ RENDERING (setState_ TRANSITIONING c)), Normal tt)
        | Throw e => (setState_ TRANSITIONING c, Throw e)
        end
    | None => (emit_ (renderStreamReady rs) c, Normal tt)
    end.
Proof.
  unfold triggerSeamlessTransition, bind, get, emit, modify, setState, await.
  destruct (negb (enableSeamlessTransition (config c))); [reflexivity|].
  destruct (getModule "transition" c) as [module|]; [|reflexivity].
  destruct (callTransition module rs (history c)); reflexivity.
Qed.

Lemma forEachSegment_cons i segment rest c :
  forEachSegment entropy i (segment :: rest) c =
  match snd (generateRenderStream (entropy i) segment c) with
  | Throw e => (c, Throw e)
  | Normal rs =>
      match triggerSeamlessTransition rs
              (with_history (addToHistory_ rs (history c)) c) with
      | (c2, Normal _) => forEachSegment entropy (S i) rest c2
      | (c2, Throw e) => (c2, Throw e)
      end
  end.
Proof.
  cbn [forEachSegment]. unfold bind at 1.
  pose proof (generateRenderStream_fst (entropy i) segment c) as Hc.
  destruct (generateRenderStream (entropy i) segment c) as [c1 [rs|e]];
    simpl in Hc; subst c1; [|reflexivity].
  cbn [snd]. unfold bind, addToHistory, modify. reflexivity.
Qed.

Lemma failedInTransition_more e c c1 c' n1 n2 :
  history c1 = appendAll (readyStreams n1) (history c) ->
  failedInTransition e c1 c' n2 -> failedInTransition e c c' (n1 ++ n2).
Proof.
  intros Hh (pre & old & rs & module & -> & Hh' & H).
  exists (n1 ++ pre), old, rs, module. rewrite List.app_assoc.
  split; [reflexivity|]. split; [|exact H].
  now rewrite Hh', Hh, readyStreams_app, !appendAll_app.
Qed.

(** One turn of the loop after the stream was generated: what it emits, and
    where it stops when the transition throws. *)
Lemma triggerSeamlessTransition_framed rs c c' r :
  state c <> TRANSITIONING ->
  triggerSeamlessTransition rs (with_history (addToHistory_ rs (history c)) c)
  = (c', r) ->
  exists news,
    framed c c' news /\
    match r with
    | Normal _ =>
        state c' <> TRANSITIONING /\
        readyStreams news = [rs] /\
        history c' = addToHistory_ rs (history c)
    | Throw e => state c' = TRANSITIONING /\ failedInTransition e c c' news
    end.
Proof.
  intros Hs. rewrite triggerSeamlessTransition_cases.
  set (c0 := with_history (addToHistory_ rs (history c)) c).
  assert (F0 : framed c c0 []) by apply framed_history.
  destruct (negb (enableSeamlessTransition (config c0))).
  { intros [= <- <-]. exists ([] ++ [renderStreamReady rs]). split.
    - eapply framed_trans; [exact F0|]. now apply framed_emit.
    - repeat split. exact Hs. }
  destruct (getModule "transition" c0) as [module|] eqn:Hmod.
  2:{ intros [= <- <-]. exists ([] ++ [renderStreamReady rs]). split.
      - eapply framed_trans; [exact F0|]. now apply framed_emit.
      - repeat split. exact Hs. }
  destruct (callTransition module rs (history c0)) as [[]|e] eqn:Hcall;
    intros [= <- <-].
  - exists ([] ++ [stateChanged (state c0) TRANSITIONING]
            ++ [stateChanged TRANSITIONING RENDERING]
            ++ [renderStreamReady rs]).
    split; [|repeat split; discriminate].
    eapply framed_trans; [exact F0|].
    eapply framed_trans; [apply framed_setState|].
    eapply framed_trans; [apply framed_setState|].
    now apply framed_emit.
  - exists ([] ++ [stateChanged (state c0) TRANSITIONING]). split.
    + eapply framed_trans; [exact F0|]. apply framed_setState.
    + split; [reflexivity|].
      exists [], (state c0), rs, module. repeat split; assumption.
Qed.

(** The loop: what it emits, what it appends, and where it stops when it
    throws in [TRANSITIONING]. *)
Lemma forEachSegment_framed segments :
  forall i c c' r,
  state c <> TRANSITIONING ->
  forEachSegment entropy i segments c = (c', r) ->
  exists news,
    framed c c' news /\
    match r with
    | Normal _ =>
        state c' <> TRANSITIONING /\
        history c' = appendAll (readyStreams news) (history c)
    | Throw e => state c' = TRANSITIONING -> failedInTransition e c c' news
    end.
Proof.
  induction segments as [|segment rest IH]; intros i c c' r Hs.
  - intros [= <- <-]. exists []. split; [apply framed_refl|]. now split.
  - rewrite forEachSegment_cons.
    destruct (snd (generateRenderStream (entropy i) segment c)) as [rs|e].
    2:{ intros [= <- <-]. exists []. split; [apply framed_refl|].
        intros H. contradiction. }
    destruct (triggerSeamlessTransition rs _) as [c2 [[]|e]] eqn:Ht;
      destruct (triggerSeamlessTransition_framed _ _ _ _ Hs Ht)
        as (n1 & F1 & H1).
    + destruct H1 as (Hs2 & Hready & Hh2).
      assert (Hh : history c2 = appendAll (readyStreams n1) (history c))
        by now rewrite Hready.
      intros Hloop. destruct (IH _ _ _ _ Hs2 Hloop) as (n2 & F2 & H2).
      exists (n1 ++ n2). split; [eapply framed_trans; eassumption|].
      destruct r.
      * destruct H2 as [H2 Hh']. split; [exact H2|].
        now rewrite Hh', Hh, readyStreams_app, appendAll_app.
      * intros H. eapply failedInTransition_more; [exact Hh | auto].
    + intros [= <- <-]. exists n1. split; [exact F1|]. intros _. apply H1.
Qed.

(** The [try] block. *)
Lemma processBody_framed text c c' r :
  processBody entropy text c = (c', r) ->
  exists news,
    framed c c'
      ([stateChanged (state c) PROCESSING; aiResponseReceived text] ++ news) /\
    match r with
    | Normal _ => state c' = IDLE
    | Throw e => state c' = TRANSITIONING ->
                 failedInTransition e c c'
                   ([stateChanged (state c) PROCESSING; aiResponseReceived text]
                    ++ news)
    end.
Proof.
  unfold processBody. unfold bind at 1 2 3. unfold setState, emit, modify.
  set (c0 := emit_ (aiResponseReceived text) (setState_ PROCESSING c)).
  assert (F0 : framed c c0
                 ([stateChanged (state c) PROCESSING] ++ [aiResponseReceived text])).
  { eapply framed_trans; [apply framed_setState | now apply framed_emit]. }
  assert (S0 : state c0 <> TRANSITIONING) by (simpl; discriminate).
  pose proof (segmentText_fst text c0) as Hseg.
  destruct (segmentText text c0) as [c1 [segments|e]]; simpl in Hseg; subst c1.
  2:{ intros [= <- <-]. exists []. split.
      - rewrite List.app_nil_r. exact F0.
      - intros H. contradiction. }
  unfold bind at 1.
  destruct (forEachSegment entropy 0 segments c0) as [c2 [[]|e]] eqn:Hloop;
    destruct (forEachSegment_framed _ _ _ _ _ S0 Hloop) as (n1 & F1 & H1).
  - unfold bind, modify. intros [= <- <-].
    exists (n1 ++ [stateChanged (state c2) IDLE]
               ++ [aiResponseProcessed text segments]).
    split; [|reflexivity].
    eapply (framed_trans _ _ _ _ _ F0).
    eapply framed_trans; [exact F1|].
    eapply framed_trans; [apply framed_setState | now apply framed_emit].
  - intros [= <- <-]. exists n1. split.
    + apply (framed_trans _ _ _ _ _ F0 F1).
    + intros H.
      apply (failedInTransition_more _ _ c0 _
               [stateChanged (state c) PROCESSING; aiResponseReceived text]);
        [reflexivity | auto].
Qed.

(** The [catch] block: with a listener attached to [error] it emits the
    event, schedules the recovery and throws what it caught; with none, the
    [emit] throws and the block ends there. *)
Lemma processAIResponse_cases text c :
  processAIResponse entropy text c =
  match processBody entropy text c with
  | (c1, Normal a) => (c1, Normal a)
  | (c1, Throw e) =>
      if bool_decide ("error" ∈ listeners c1)
      then (setTimeout_ resetErrorState 5000
              (emit_ (error e (lit "processAIResponse")) (setState_ ERROR c1)),
            Throw e)
      else (setState_ ERROR c1, Throw (Unhandled e (lit "processAIResponse")))
  end.
Proof.
  unfold processAIResponse, tryCatch.
  destruct (processBody entropy text c) as [c1 [a|e]]; [reflexivity|].
  unfold processCatch, bind, setState, modify, emit, setTimeout, throw.
  cbn [listeners setState_ emit_ with_state].
  destruct (bool_decide ("error" ∈ listeners c1)); reflexivity.
Qed.

Lemma processBody_listeners text c :
  listeners (fst (processBody entropy text c)) = listeners c.
Proof.
  destruct (processBody entropy text c) as [c1 r] eqn:Hbody.
  destruct (processBody_framed _ _ _ _ Hbody) as (news & F & _).
  apply F.
Qed.

Lemma filter_no_error (news : list Event) :
  List.Forall (fun ev => isErrorEvent ev = false) news ->
  List.filter isErrorEvent news = [].
Proof. induction 1 as [|ev l H _ IH]; simpl; [reflexivity|]. now rewrite H. Qed.

(** C2 (amended). While a listener is attached to [error]: when the [try]
    block of [processAIResponse] throws [e] with the controller in
    [TRANSITIONING], the call ends in [ERROR] and throws [e] to its caller;
    the events of the call end with the entry into [TRANSITIONING], then the
    change from [TRANSITIONING] to [ERROR], then the [error] event; the
    streams the call appended to the history are the streams it announced
    by [renderStreamReady], in that order, and then the stream [rs] on
    which the transition module threw [e], which it did not announce; that
    [error] event is the only one of the call, it carries [e], and its
    context is the string "processAIResponse". *)
Theorem transition_failure_surfaces_once (text : jsstring) (c c1 : Controller)
    (e : JsError)
    (Hlistener : "error" ∈ listeners c)
    (Hthrow : processBody entropy text c = (c1, Throw e))
    (Hstate : state c1 = TRANSITIONING) :
  exists c' pre old rs module,
    processAIResponse entropy text c = (c', Throw e) /\
    state c' = ERROR /\
    trace c' = trace c ++ pre
                 ++ [stateChanged old TRANSITIONING;
                     stateChanged TRANSITIONING ERROR;
                     error e (lit "processAIResponse")] /\
    List.filter isErrorEvent
      (pre ++ [stateChanged old TRANSITIONING;
               stateChanged TRANSITIONING ERROR;
               error e (lit "processAIResponse")])
    = [error e (lit "processAIResponse")] /\
    history c' = appendAll (readyStreams pre ++ [rs]) (history c) /\
    getModule "transition" c' = Some module /\
    callTransition module rs (history c') = Throw e.
Proof.
  destruct (processBody_framed _ _ _ _ Hthrow) as (news & F & Hfailed).
  destruct (Hfailed Hstate) as (pre & old & rs & module & Hnews & Hh & Hm & Hcall).
  destruct F as (_ & _ & _ & Hl & Htrace & Hnoerr).
  rewrite Hnews in Htrace, Hnoerr.
  apply List.Forall_app in Hnoerr. destruct Hnoerr as [Hpre _].
  eexists _, pre, old, rs, module.
  rewrite processAIResponse_cases, Hthrow, Hl.
  rewrite bool_decide_eq_true_2 by exact Hlistener.
  split; [reflexivity|]. split; [reflexivity|]. split.
  - simpl. rewrite Htrace, Hstate, <- !List.app_assoc. reflexivity.
  - split; [|auto].
    rewrite List.filter_app, (filter_no_error _ Hpre). reflexivity.
Qed.

(** The adapter. *)

Lemma processAIResponse_starts text c :
  exists rest,
    trace (fst (processAIResponse entropy text c))
    = trace c ++ [stateChanged (state c) PROCESSING; aiResponseReceived text]
        ++ rest /\
    match snd (processAIResponse entropy text c) with
    | Normal _ => state (fst (processAIResponse entropy text c)) = IDLE
    | Throw _ => state (fst (processAIResponse entropy text c)) = ERROR
    end.
Proof.
  rewrite processAIResponse_cases.
  destruct (processBody entropy text c) as [c1 [[]|e]] eqn:Hbody;
    destruct (processBody_framed _ _ _ _ Hbody)
      as (news & (_ & _ & _ & _ & Htrace & _) & Hend); cbn [fst snd].
  - exists news. split; assumption.
  - destruct (bool_decide ("error" ∈ listeners c1)); cbn [fst snd].
    + exists (news ++ [stateChanged (state c1) ERROR;
                       error e (lit "processAIResponse")]).
      split; [|reflexivity]. simpl. rewrite Htrace, <- !List.app_assoc.
      reflexivity.
    + exists (news ++ [stateChanged (state c1) ERROR]).
      split; [|reflexivity]. simpl. rewrite Htrace, <- !List.app_assoc.
      reflexivity.
Qed.

(** C1 (amended). The guard is the one of the adapter: while its
    [isProcessing] flag is set, [handleAIResponse] returns at once; the
    controller, its state, its history and its trace are as they were, and
    the text is kept nowhere.  [processAIResponse] of the controller has no
    guard: in every state it sets the state to [PROCESSING], emits
    [aiResponseReceived] and processes the text, to end in [IDLE], or in
    [ERROR] when a module throws. *)
Theorem submit_guard_is_in_adapter (text : jsstring)
    (a : CameraModeAdapter.Adapter)
    (Hbusy : CameraModeAdapter.isProcessing a = true) :
  CameraModeAdapter.handleAIResponse entropy text a = (a, Normal tt) /\
  (forall c,
     exists rest,
       trace (fst (processAIResponse entropy text c))
       = trace c ++ [stateChanged (state c) PROCESSING; aiResponseReceived text]
           ++ rest /\
       match snd (processAIResponse entropy text c) with
       | Normal _ => state (fst (processAIResponse entropy text c)) = IDLE
       | Throw _ => state (fst (processAIResponse entropy text c)) = ERROR
       end).
Proof.
  split.
  - unfold CameraModeAdapter.handleAIResponse. now rewrite Hbusy.
  - intros c. apply processAIResponse_starts.
Qed.

(** The controller of [createDefaultController]. *)

Variable toLowerCase : jsstring -> jsstring.

Lemma default_modules :
  let c := VirtualHumanFactory.createDefaultController toLowerCase in
  modules c !! "segmentation"
    = Some (VirtualHumanFactory.segmentationModule toLowerCase) /\
  modules c !! "generation"
    = Some (VirtualHumanFactory.generationModule toLowerCase).
Proof. split; reflexivity. Qed.

Lemma forEachSegment_default segments :
  forall i c,
  config c = VirtualHumanFactory.defaultConfig ->
  modules c = modules (VirtualHumanFactory.createDefaultController toLowerCase) ->
  forEachSegment entropy i segments c =
  (let rss := generated toLowerCase entropy i segments (history c) in
   mkController (state c) (appendAll rss (history c)) (config c) (modules c)
     (trace c ++ List.map renderStreamReady rss) (timers c) (listeners c),
   Normal tt).
Proof.
  induction segments as [|segment rest IH]; intros i c Hcfg Hmod.
  - destruct c. simpl. now rewrite List.app_nil_r.
  - assert (Hgen : getModule "generation" c
                   = Some (VirtualHumanFactory.generationModule toLowerCase)).
    { unfold getModule. rewrite Hmod. apply default_modules. }
    assert (Hoff : enableSeamlessTransition (config c) = false)
      by now rewrite Hcfg.
    rewrite forEachSegment_cons.
    unfold generateRenderStream at 1, bind at 1, get at 1. rewrite Hgen.
    cbn [VirtualHumanFactory.generationModule await snd].
    rewrite triggerSeamlessTransition_cases.
    cbn [config with_history]. rewrite Hoff. cbn [negb].
    rewrite IH by assumption.
    cbn [generated appendAll List.fold_left List.map state history config
         modules trace timers emit_ with_history].
    rewrite <- List.app_assoc. reflexivity.
Qed.

(** C10. The configuration of [createDefaultController] has
    [enableSeamlessTransition] false.  For such a controller, whatever its
    state and its history, [processAIResponse] returns; the streams it
    generates are appended to the history in order; the events of the call
    are the change to [PROCESSING], [aiResponseReceived], one
    [renderStreamReady] per stream in order, the change from [PROCESSING] to
    [IDLE] and [aiResponseProcessed]: no state change enters [TRANSITIONING]
    or [RENDERING]; and each turn of the loop appends the stream and emits
    [renderStreamReady] for it with nothing in between. *)
Theorem default_controller_bypasses_transition (text : jsstring)
    (c : Controller)
    (Hcfg : config c = config (VirtualHumanFactory.createDefaultController toLowerCase))
    (Hmod : modules c = modules (VirtualHumanFactory.createDefaultController toLowerCase)) :
  let segments :=
    SegmentationModule.segment toLowerCase SegmentationModule.defaultConfig text in
  let rss := generated toLowerCase entropy 0 segments (history c) in
  let news :=
    [stateChanged (state c) PROCESSING; aiResponseReceived text]
    ++ List.map renderStreamReady rss
    ++ [stateChanged PROCESSING IDLE; aiResponseProcessed text segments] in
  enableSeamlessTransition (config c) = false /\
  processAIResponse entropy text c =
    (mkController IDLE (appendAll rss (history c)) (config c) (modules c)
       (trace c ++ news) (timers c) (listeners c),
     Normal tt) /\
  List.Forall (fun ev => entersTransitioningOrRendering ev = false) news /\
  (forall rs d, config d = config c ->
     (addToHistory rs ;;; triggerSeamlessTransition rs) d =
     (emit_ (renderStreamReady rs)
        (with_history (addToHistory_ rs (history d)) d), Normal tt)).
Proof.
  intros segments rss news.
  change (config (VirtualHumanFactory.createDefaultController toLowerCase))
    with VirtualHumanFactory.defaultConfig in Hcfg.
  split; [now rewrite Hcfg|]. split; [|split].
  - assert (Hseg : getModule "segmentation" c
                   = Some (VirtualHumanFactory.segmentationModule toLowerCase)).
    { unfold getModule. rewrite Hmod. apply default_modules. }
    assert (Hon : enableSmartSegmentation (config c) = true)
      by now rewrite Hcfg.
    rewrite processAIResponse_cases. unfold processBody.
    unfold bind at 1 2 3, setState, emit, modify.
    unfold segmentText at 1, bind at 1, get at 1.
    change (getModule "segmentation"
              (emit_ (aiResponseReceived text) (setState_ PROCESSING c)))
      with (getModule "segmentation" c).
    change (config (emit_ (aiResponseReceived text) (setState_ PROCESSING c)))
      with (config c).
    rewrite Hseg, Hon.
    cbn [VirtualHumanFactory.segmentationModule await].
    fold segments. unfold bind at 1.
    rewrite forEachSegment_default by assumption.
    unfold bind, modify, setState_, with_state. unfold emit_.
    cbn [state history config modules trace timers].
    fold rss. unfold news. rewrite <- !List.app_assoc. reflexivity.
  - unfold news. apply List.Forall_app. split; [repeat constructor|].
    apply List.Forall_app. split; [|repeat constructor].
    apply List.Forall_forall. intros ev Hin.
    apply List.in_map_iff in Hin. destruct Hin as (rs & <- & _). reflexivity.
  - intros rs d Hd. unfold bind, addToHistory, modify.
    rewrite triggerSeamlessTransition_cases. cbn [config with_history].
    rewrite Hd, Hcfg. reflexivity.
Qed.

End Controller.

(** Runs of the controller. *)

Section ControllerExamples.

Import VirtualHumanController Props.

Lemma submit_guard_is_in_adapter_witness :
  CameraModeAdapter.handleAIResponse (fun _ => entropy0) (lit "hi") busyAdapter
  = (busyAdapter, Normal tt).
Proof.
  exact (proj1 (submit_guard_is_in_adapter (fun _ => entropy0) (lit "hi")
                  busyAdapter eq_refl)).
Defined.

(** C1, as stated, fails: in [ERROR] and in [PROCESSING] a call of
    [processAIResponse] is not rejected; it segments the text, appends the
    stream to the history, emits its five events and leaves the state
    [IDLE]; so does a call through an adapter that is not busy. *)
Lemma processAIResponse_runs_when_not_idle :
  let fresh := VirtualHumanFactory.createDefaultController lowerASCII in
  let run c := fst (processAIResponse (fun _ => entropy0) (lit "hi") c) in
  let viaAdapter c :=
    CameraModeAdapter.controller
      (fst (CameraModeAdapter.handleAIResponse (fun _ => entropy0) (lit "hi")
              (CameraModeAdapter.new c))) in
  List.Forall
    (fun s =>
       s <> IDLE /\
       state (with_state s fresh) = s /\
       state (run (with_state s fresh)) = IDLE /\
       List.length (streams (history (with_state s fresh))) = 0%nat /\
       List.length (streams (history (run (with_state s fresh)))) = 1%nat /\
       List.length (trace (run (with_state s fresh)))
       = (List.length (trace (with_state s fresh)) + 5)%nat /\
       List.length (streams (history (viaAdapter (with_state s fresh)))) = 1%nat)
    [ERROR; PROCESSING].
Proof. repeat constructor; discriminate. Qed.

(** C9, as stated, fails on the controller the factory returns.  The
    [catch] block sets the state to [ERROR], emits [error], then schedules
    the recovery, then throws what it caught.  No listener is attached to
    [error] on a controller fresh from the factory, so when the transition
    of the first stream throws, the [emit] throws and the block ends there:
    the state is [ERROR], no timer is pending, and the caller gets the
    [Error] of the [emit], not what the module threw.  On the same
    controller with the listeners of the adapter, the timer of 5000 ms is
    pending and the caller gets what the module threw. *)
Theorem unheard_error_schedules_no_recovery :
  let run c := processAIResponse (fun _ => entropy0) (lit "hi") c in
  (listeners failingController = [] /\
   snd (run failingController)
   = Throw (Unhandled transitionFailed (lit "processAIResponse")) /\
   state (fst (run failingController)) = ERROR /\
   timers (fst (run failingController)) = [] /\
   List.filter isErrorEvent (trace (fst (run failingController))) = []) /\
  (listeners watchedFailingController
   = ["renderStreamReady"; "stateChanged"; "error"]%string /\
   snd (run watchedFailingController) = Throw transitionFailed /\
   state (fst (run watchedFailingController)) = ERROR /\
   timers (fst (run watchedFailingController)) = [(resetErrorState, 5000)]).
Proof. repeat split. Qed.

Lemma transition_failure_surfaces_once_witness :
  exists c' pre old rs module,
    processAIResponse (fun _ => entropy0) (lit "hi") watchedFailingController
    = (c', Throw transitionFailed) /\
    state c' = ERROR /\
    trace c' = trace watchedFailingController ++ pre
                 ++ [stateChanged old TRANSITIONING;
                     stateChanged TRANSITIONING ERROR;
                     error transitionFailed (lit "processAIResponse")] /\
    List.filter isErrorEvent
      (pre ++ [stateChanged old TRANSITIONING;
               stateChanged TRANSITIONING ERROR;
               error transitionFailed (lit "processAIResponse")])
    = [error transitionFailed (lit "processAIResponse")] /\
    history c'
    = appendAll (readyStreams pre ++ [rs]) (history watchedFailingController) /\
    getModule "transition" c' = Some module /\
    callTransition module rs (history c') = Throw transitionFailed.
Proof.
  apply (transition_failure_surfaces_once (fun _ => entropy0) (lit "hi")
           watchedFailingController
           (fst (processBody (fun _ => entropy0) (lit "hi")
                   watchedFailingController))
           transitionFailed).
  - apply (bool_decide_eq_true_1 _). reflexivity.
  - change (Throw transitionFailed)
      with (snd (processBody (fun _ => entropy0) (lit "hi")
                   watchedFailingController)).
    apply surjective_pairing.
  - reflexivity.
Defined.

(** C2, as stated, fails on the context: when the transition of the first
    stream throws, with the listeners of the adapter attached, the call
    emits the five events below; the context of the [error] event is
    "processAIResponse", and the id of the stream, "stream_1701_k3j9x0q2a",
    is no part of it. *)
Lemma error_context_is_not_the_stream_id :
  let c' := fst (processAIResponse (fun _ => entropy0) (lit "hi")
                   watchedFailingController) in
  List.skipn (List.length (trace watchedFailingController)) (trace c')
  = [stateChanged IDLE PROCESSING;
     aiResponseReceived (lit "hi");
     stateChanged PROCESSING TRANSITIONING;
     stateChanged TRANSITIONING ERROR;
     error transitionFailed (lit "processAIResponse")] /\
  (streamId <$> last (streams (history c')))
  = Some (Some (lit "stream_1701_k3j9x0q2a")) /\
  (forall rs, last (streams (history c')) = Some rs ->
              ~ errorContextCarriesId c' rs).
Proof.
  intros c'. split; [reflexivity|]. split; [reflexivity|].
  intros rs Hrs (e & context & id & Hin & Hid & Hinc).
  vm_compute in Hrs. injection Hrs as <-.
  vm_compute in Hid. injection Hid as <-.
  assert (Htrace : trace c' = trace watchedFailingController
                     ++ [stateChanged IDLE PROCESSING;
                         aiResponseReceived (lit "hi");
                         stateChanged PROCESSING TRANSITIONING;
                         stateChanged TRANSITIONING ERROR;
                         error transitionFailed (lit "processAIResponse")])
    by reflexivity.
  rewrite Htrace in Hin. apply List.in_app_or in Hin. destruct Hin as [Hin|Hin].
  - assert (Hreg : List.Forall (fun ev => isErrorEvent ev = false)
                     (trace watchedFailingController)) by (repeat constructor).
    rewrite List.Forall_forall in Hreg. specialize (Hreg _ Hin). discriminate.
  - simpl in Hin.
    repeat (destruct Hin as [Hin|Hin]; [try discriminate Hin|]);
      [|contradiction].
    injection Hin as <- <-. vm_compute in Hinc. discriminate.
Qed.

Lemma default_controller_bypasses_transition_witness :
  let c := VirtualHumanFactory.createDefaultController lowerASCII in
  enableSeamlessTransition (config c) = false /\
  state (fst (processAIResponse (fun _ => entropy0) (lit "hi") c)) = IDLE.
Proof.
  intros c.
  destruct (default_controller_bypasses_transition (fun _ => entropy0)
              lowerASCII (lit "hi") c eq_refl eq_refl) as (Hoff & Hrun & _).
  split; [exact Hoff|]. rewrite Hrun. reflexivity.
Defined.

End ControllerExamples.

(** ** SmartSentenceSegmenter *)

Section Accumulator.

Import SmartSentenceSegmenter Props.

Lemma matchEnd_sound (min : nat) (stop : N -> bool) (s : jsstring) :
  forall i n, matchEnd min stop i s = Some n -> matchesFrom min stop i s n.
Proof.
  induction s as [|c r IH]; intros i n; cbn [matchEnd]; [discriminate|].
  assert (Hhere : (if (min <=? i)%nat && stop c then Some (S i) else None)
                  = Some n -> matchesFrom min stop i (c :: r) n).
  { destruct (Nat.leb_spec min i); cbn [andb]; [|discriminate].
    destruct (stop c) eqn:Hc; [|discriminate]. intros [= <-].
    exists [], c, r. cbn [List.length]. repeat split; try assumption; try lia.
    constructor. }
  destruct (isDot c) eqn:Hdot; [|exact Hhere].
  destruct (matchEnd min stop (S i) r) as [n'|] eqn:E; [|exact Hhere].
  intros [= <-]. destruct (IH _ _ E) as (body & c' & rest & -> & Hb & Hc' & Hmin & ->).
  exists (c :: body), c', rest. cbn [List.length].
  repeat split; try assumption; try lia. constructor; assumption.
Qed.

Lemma matchEnd_longest (min : nat) (stop : N -> bool) (s : jsstring) :
  forall i m, matchesFrom min stop i s m ->
  exists n, matchEnd min stop i s = Some n /\ (m <= n)%nat.
Proof.
  induction s as [|c r IH]; intros i m (body & c' & rest & Hs & Hb & Hc' & Hmin & ->).
  - destruct body; discriminate.
  - cbn [matchEnd]. destruct body as [|b body].
    + injection Hs as <- <-. cbn [List.length] in *.
      replace (min <=? i)%nat with true by (symmetry; apply Nat.leb_le; lia).
      rewrite Hc'. cbn [andb].
      destruct (isDot c); [|exists (S i); split; [reflexivity | lia]].
      destruct (matchEnd min stop (S i) r) as [n'|] eqn:E.
      * exists n'. split; [reflexivity|].
        destruct (matchEnd_sound _ _ _ _ _ E) as (? & ? & ? & _ & _ & _ & _ & ->).
        lia.
      * exists (S i). split; [reflexivity | lia].
    + injection Hs as <- ->. inversion Hb as [|? ? Hdot Hb']; subst.
      rewrite Hdot. cbn [List.length] in *.
      destruct (IH (S i) (S (S i + List.length body))) as (n & -> & Hn).
      { exists body, c', rest. repeat split; try assumption; lia. }
      exists n. split; [reflexivity | lia].
Qed.

Lemma matchEnd_None (min : nat) (stop : N -> bool) (s : jsstring) :
  matchEnd min stop 0 s = None -> forall m, ~ matchesAt min stop s m.
Proof.
  intros E m H. destruct (matchEnd_longest _ _ _ _ _ H) as (n & Hn & _).
  congruence.
Qed.

Lemma matchEnd_Some (min : nat) (stop : N -> bool) (s : jsstring) (n : nat) :
  matchEnd min stop 0 s = Some n ->
  longestMatch min stop s n /\ (0 < n <= List.length s)%nat.
Proof.
  intros E. pose proof (matchEnd_sound _ _ _ _ _ E) as H. split; [split|].
  - exact H.
  - intros m Hm. destruct (matchEnd_longest _ _ _ _ _ Hm) as (n' & Hn' & Hle).
    congruence.
  - destruct H as (body & c & rest & -> & _ & _ & _ & ->).
    rewrite List.length_app. cbn [List.length]. lia.
Qed.

(** What [extractCompleteSentences] does to a buffer. *)
Lemma extractCompleteSentences_spec (s : Segmenter) :
  let buffer := sentenceBuffer s in
  let out := fst (extractCompleteSentences s) in
  let s' := snd (extractCompleteSentences s) in
  lastProcessedContent s' = lastProcessedContent s /\
  ((out = [] /\ sentenceBuffer s' = buffer /\
    (forall n, ~ matchesAt 1 isStop buffer n) /\
    (forall n, ~ matchesAt 10 isSoft buffer n))
   \/
   (exists sentence rest,
      out = [sentence] /\ buffer = sentence ++ rest /\
      ruleLength buffer (List.length sentence) /\
      sentenceBuffer s' = trimStart rest)).
Proof.
  intros buffer out s'. subst out s'. unfold extractCompleteSentences, sentenceMatch.
  fold buffer.
  assert (Hcut : forall n, (0 < n <= List.length buffer)%nat ->
            truthy (List.firstn n buffer) = true /\
            buffer = List.firstn n buffer ++ List.skipn n buffer /\
            List.length (List.firstn n buffer) = n).
  { intros n Hn. split; [|split].
    - destruct buffer; [simpl in Hn; lia|]. destruct n; [lia | reflexivity].
    - symmetry. apply List.firstn_skipn.
    - rewrite List.length_firstn. lia. }
  destruct (matchEnd 1 isStop 0 buffer) as [n|] eqn:E1.
  - destruct (matchEnd_Some _ _ _ _ E1) as (Hlong & Hn).
    destruct (Hcut n Hn) as (-> & Hsplit & Hlen). cbn [fst snd lastProcessedContent sentenceBuffer].
    split; [reflexivity|]. right.
    exists (List.firstn n buffer), (List.skipn n buffer).
    rewrite Hlen. unfold sliceFrom. repeat split; try assumption. now left.
  - pose proof (matchEnd_None _ _ _ E1) as Hno1.
    destruct (matchEnd 10 isSoft 0 buffer) as [n|] eqn:E2.
    + destruct (matchEnd_Some _ _ _ _ E2) as (Hlong & Hn).
      destruct (Hcut n Hn) as (-> & Hsplit & Hlen). cbn [fst snd lastProcessedContent sentenceBuffer].
      split; [reflexivity|]. right.
      exists (List.firstn n buffer), (List.skipn n buffer).
      rewrite Hlen. unfold sliceFrom. repeat split; try assumption. now right.
    + pose proof (matchEnd_None _ _ _ E2) as Hno2. cbn [fst snd].
      split; [reflexivity|]. left. repeat split; assumption.
Qed.

(** C6 (amended). When the content has grown, [processNewContent] appends
    the new suffix to the buffer and applies the sentence rule once, at the
    start of the buffer: it emits nothing and keeps the buffer when the rule
    matches no prefix; else it emits one string, the longest prefix of the
    form "characters of one line, then one of newline ~ 。 ！ ． ？", or, when
    there is none, the longest prefix of the form "ten or more characters of
    one line, then , or 、", and keeps the rest of the buffer less its
    leading white space.  The rest may hold further complete sentences. *)
Theorem processNewContent_emits_one_prefix (content : jsstring) (s : Segmenter)
    (Hgrown : (List.length (lastProcessedContent s) < List.length content)%nat) :
  let buffer :=
    sentenceBuffer s ++ sliceFrom (List.length (lastProcessedContent s)) content in
  let out := fst (processNewContent content s) in
  let s' := snd (processNewContent content s) in
  lastProcessedContent s' = content /\
  ((out = [] /\ sentenceBuffer s' = buffer /\
    (forall n, ~ matchesAt 1 isStop buffer n) /\
    (forall n, ~ matchesAt 10 isSoft buffer n))
   \/
   (exists sentence rest,
      out = [sentence] /\ buffer = sentence ++ rest /\
      ruleLength buffer (List.length sentence) /\
      sentenceBuffer s' = trimStart rest)).
Proof.
  intros buffer out s'. subst out s'. unfold processNewContent.
  assert (Hne : eqb content (lastProcessedContent s) = false).
  { unfold eqb. apply bool_decide_eq_false_2. intros E. rewrite E in Hgrown. lia. }
  rewrite Hne.
  replace (len content <? len (lastProcessedContent s)) with false
    by (symmetry; apply Z.ltb_ge; unfold len; lia).
  replace (len (sliceFrom (List.length (lastProcessedContent s)) content) =? 0)
    with false.
  2:{ symmetry. apply Z.eqb_neq. unfold len, sliceFrom.
      rewrite List.length_skipn. lia. }
  apply (extractCompleteSentences_spec (mkSegmenter buffer content)).
Qed.

End Accumulator.

Section AccumulatorExamples.

Import SmartSentenceSegmenter Props.

Lemma processNewContent_emits_one_prefix_witness :
  fst (processNewContent twoLines SmartSentenceSegmenter.new)
  = [[0x4F60; 0x597D; 0x3002; 0x0A]%N] /\
  lastProcessedContent (snd (processNewContent twoLines SmartSentenceSegmenter.new))
  = twoLines.
Proof.
  assert (Hgrown : (List.length (lastProcessedContent SmartSentenceSegmenter.new)
                    < List.length twoLines)%nat) by (simpl; lia).
  destruct (processNewContent_emits_one_prefix twoLines SmartSentenceSegmenter.new
              Hgrown) as (Hlast & _).
  split; [reflexivity | exact Hlast].
Defined.

(** C6, as stated, fails: of two lines that arrive in one chunk,
    [processNewContent] emits the first; the second, 我好。 , is a complete
    sentence by the rule, it is not in the returned list, and it stays in
    the buffer. *)
Lemma processNewContent_keeps_complete_sentence :
  let out := fst (processNewContent twoLines SmartSentenceSegmenter.new) in
  let s' := snd (processNewContent twoLines SmartSentenceSegmenter.new) in
  out = [[0x4F60; 0x597D; 0x3002; 0x0A]%N] /\
  sentenceBuffer s' = [0x6211; 0x597D; 0x3002]%N /\
  sentenceMatch (sentenceBuffer s') = Some [0x6211; 0x597D; 0x3002]%N /\
  ~ List.In [0x6211; 0x597D; 0x3002]%N out /\
  sentenceMatch (sentenceBuffer s') <> None.
Proof.
  repeat split; try reflexivity.
  - intros [H|[]]. discriminate H.
  - discriminate.
Qed.

End AccumulatorExamples.

(** * Further properties *)

(** ** SegmentationModule: edges, pauses and cuts *)

Section SegmentationMore.

Import SegmentationModule Props.

Variable toLowerCase : jsstring -> jsstring.
Variable config : Config.

Lemma Forall_takeWhile (P : N -> Prop) (p : N -> bool) (s : jsstring) :
  List.Forall P s -> List.Forall P (takeWhile p s).
Proof.
  induction 1 as [|c r Hc _ IH]; simpl; [constructor|].
  destruct (p c); constructor; assumption.
Qed.

Lemma Forall_dropWhile (P : N -> Prop) (p : N -> bool) (s : jsstring) :
  List.Forall P s -> List.Forall P (dropWhile p s).
Proof.
  induction 1 as [|c r Hc Hr IH]; simpl; [constructor|].
  destruct (p c); [assumption | constructor; assumption].
Qed.

Lemma Forall_matchAll (P : N -> Prop) (fuel : nat) :
  forall text, List.Forall P text ->
  List.Forall (List.Forall P) (matchAll fuel text).
Proof.
  induction fuel as [|fuel IH]; intros text H; [constructor|].
  rewrite matchAll_S.
  pose proof (Forall_dropWhile P isHardBoundary text H) as Hstart.
  destruct (dropWhile isHardBoundary text) as [|c start]; [constructor|].
  constructor.
  - apply List.Forall_app. split.
    + now apply Forall_takeWhile.
    + now apply Forall_takeWhile, Forall_dropWhile.
  - apply IH. now apply Forall_dropWhile, Forall_dropWhile.
Qed.

Lemma trim_white (s : jsstring) :
  List.Forall (fun c => isWhiteSpace c = true) s -> trim s = [].
Proof. intros H. unfold trim, trimStart. now rewrite (dropWhile_all _ _ H). Qed.

Lemma dropWhile_nil (p : N -> bool) (s : jsstring) :
  dropWhile p s = [] -> List.Forall (fun c => p c = true) s.
Proof.
  induction s as [|c r IH]; simpl; [constructor|].
  destruct (p c) eqn:E; [|discriminate]. intros H. constructor; auto.
Qed.

Lemma trim_nil (s : jsstring) :
  trim s = [] -> List.Forall (fun c => isWhiteSpace c = true) s.
Proof.
  unfold trim, trimEnd, trimStart. intros H.
  apply (f_equal (@List.rev N)) in H. rewrite List.rev_involutive in H.
  simpl in H. apply dropWhile_nil in H.
  apply List.Forall_rev in H. rewrite List.rev_involutive in H.
  destruct (dropWhile isWhiteSpace s) as [|c r] eqn:E.
  - now apply dropWhile_nil.
  - apply dropWhile_head in E. inversion H; congruence.
Qed.

Lemma splitIntoSentences_white (text : jsstring) :
  List.Forall (fun c => isWhiteSpace c = true) text ->
  splitIntoSentences text = [].
Proof.
  intros Hwhite. unfold splitIntoSentences.
  pose proof (Forall_matchAll _ (List.length text) text Hwhite) as Hm.
  induction Hm as [|m ms Hm _ IH]; [reflexivity|].
  cbn [List.map List.filter]. now rewrite (trim_white _ Hm).
Qed.

(** X1. A text of white space only, the empty text among them, gives no
    sentence and no segment. *)
Theorem segment_of_white_space (text : jsstring)
    (Hwhite : List.Forall (fun c => isWhiteSpace c = true) text) :
  splitIntoSentences text = [] /\
  segment toLowerCase config text = [].
Proof.
  pose proof (splitIntoSentences_white text Hwhite) as H.
  split; [exact H|]. unfold SegmentationModule.segment. now rewrite H.
Qed.

Lemma splitLongLoop_nonempty (emotion : jsstring) (words : list N) :
  forall currentSegment,
  List.Forall
    (fun piece =>
       seg_text piece <> [] /\
       is_Some (seg_emotion piece) /\
       seg_emphasis piece = Some (hasEmphasis (seg_text piece)) /\
       seg_pause piece = Some (calculatePause config (seg_text piece)))
    (splitLongLoop config emotion words currentSegment).
Proof.
  induction words as [|word words IH]; intros cur; cbn [splitLongLoop].
  - destruct cur; [constructor|]. destruct (truthy _); repeat constructor; eauto.
  - destruct (_ && _); [constructor|]; try apply IH.
    repeat split; eauto. simpl. destruct cur; discriminate.
Qed.

Lemma splitIntoSentences_nonempty (text : jsstring) :
  List.Forall (fun s => s <> []) (splitIntoSentences text).
Proof.
  unfold splitIntoSentences. apply List.Forall_forall. intros s Hs.
  apply List.filter_In in Hs. destruct Hs as [_ Hs].
  intros ->. discriminate Hs.
Qed.

(** X2. No segment of [segment] has an empty text, and each one carries an
    emotion, its emphasis and its pause. *)
Theorem segment_never_empty (text : jsstring) :
  List.Forall
    (fun piece =>
       seg_text piece <> [] /\
       is_Some (seg_emotion piece) /\
       seg_emphasis piece = Some (hasEmphasis (seg_text piece)) /\
       seg_pause piece = Some (calculatePause config (seg_text piece)))
    (segment toLowerCase config text).
Proof.
  unfold SegmentationModule.segment.
  pose proof (splitIntoSentences_nonempty text) as Hne.
  induction Hne as [|s ss Hs _ IH]; [constructor|].
  cbn [List.flat_map]. apply List.Forall_app. split; [|exact IH].
  unfold SegmentationModule.segmentSentence.
  destruct (maxSegmentLength config <? len s).
  - apply splitLongLoop_nonempty.
  - repeat constructor; eauto.
Qed.

Lemma fold_left_add (g : jsstring -> Z) (marks : list jsstring) :
  forall acc,
  List.fold_left (fun pause mark => pause + g mark) marks acc
  = acc + List.fold_left (fun pause mark => pause + g mark) marks 0.
Proof.
  induction marks as [|m ms IH]; intros acc; cbn [List.fold_left]; [lia|].
  rewrite (IH (acc + g m)), (IH (0 + g m)). lia.
Qed.

Lemma countMark_app (mark a b : jsstring) :
  countMark mark (a ++ b) = countMark mark a + countMark mark b.
Proof.
  unfold countMark. destruct mark as [|c [|]]; try reflexivity.
  rewrite List.filter_app, List.length_app. lia.
Qed.

Lemma calculatePause_app (a b : jsstring) :
  calculatePause config (a ++ b)
  = calculatePause config a + calculatePause config b.
Proof.
  unfold calculatePause.
  induction (punctuationMarks config) as [|m ms IH]; [reflexivity|].
  cbn [List.fold_left].
  rewrite (fold_left_add _ ms (0 + _)).
  rewrite (fold_left_add (fun mark => countMark mark a * markWeight mark) ms (0 + _)).
  rewrite (fold_left_add (fun mark => countMark mark b * markWeight mark) ms (0 + _)).
  rewrite IH, countMark_app. lia.
Qed.

Lemma countMark_white (mark s : jsstring) :
  List.Forall (fun c => isWhiteSpace c = true) s ->
  countMark mark s * markWeight mark = 0.
Proof.
  intros Hs. unfold markWeight, eqb.
  assert (Hcount : forall c, isWhiteSpace c = false -> countMark [c] s = 0).
  { intros c Hc. unfold countMark.
    induction Hs as [|d r Hd _ IH]; [reflexivity|]. simpl.
    destruct (N.eqb_spec c d) as [->|_]; [congruence | exact IH]. }
  repeat match goal with
  | |- context [bool_decide (mark = ?m)] =>
      destruct (bool_decide_reflect (mark = m)) as [->|_];
      [cbn [orb]; rewrite ?orb_true_r; rewrite Hcount by reflexivity; reflexivity|]
  end.
  cbn [orb]. lia.
Qed.

Lemma calculatePause_white (s : jsstring) :
  List.Forall (fun c => isWhiteSpace c = true) s -> calculatePause config s = 0.
Proof.
  intros Hs. unfold calculatePause.
  induction (punctuationMarks config) as [|m ms IH]; [reflexivity|].
  cbn [List.fold_left]. rewrite fold_left_add, IH, (countMark_white m s Hs). lia.
Qed.

Lemma pauses_splitLongLoop (emotion : jsstring) (words : list N) :
  forall currentSegment,
  pauses (splitLongLoop config emotion words currentSegment)
  = calculatePause config (currentSegment ++ words).
Proof.
  induction words as [|word words IH]; intros cur; cbn [splitLongLoop].
  - rewrite List.app_nil_r. destruct (trim cur) eqn:E; cbn [truthy].
    + apply trim_nil in E. now rewrite (calculatePause_white _ E).
    + simpl. lia.
  - destruct (_ && _).
    + change (pauses (mk config (cur ++ [word]) emotion
                       :: splitLongLoop config emotion words []))
        with (calculatePause config (cur ++ [word])
              + pauses (splitLongLoop config emotion words [])).
      rewrite (IH []). cbn [app].
      rewrite <- calculatePause_app, <- List.app_assoc. reflexivity.
    + rewrite IH, <- List.app_assoc. reflexivity.
Qed.

Lemma pauses_app (a b : list SentenceSegment) : pauses (a ++ b) = pauses a + pauses b.
Proof. unfold pauses. induction a as [|x a IH]; simpl; [reflexivity|]. rewrite IH. lia. Qed.

(** X3. The pause is additive over concatenation; however a sentence is
    split, the pauses of its segments add up to the pause of the sentence;
    so the pauses of [segment(text)] add up to the pause of its sentences put
    end to end. *)
Theorem pause_is_conserved (text : jsstring) :
  (forall a b, calculatePause config (a ++ b)
               = calculatePause config a + calculatePause config b) /\
  (forall sentence,
     pauses (segmentSentence toLowerCase config sentence)
     = calculatePause config sentence) /\
  pauses (segment toLowerCase config text)
  = calculatePause config (List.concat (splitIntoSentences text)).
Proof.
  assert (Hs : forall sentence,
             pauses (segmentSentence toLowerCase config sentence)
             = calculatePause config sentence).
  { intros sentence. unfold SegmentationModule.segmentSentence.
    destruct (maxSegmentLength config <? len sentence).
    - apply (pauses_splitLongLoop _ sentence []).
    - simpl. lia. }
  split; [apply calculatePause_app|]. split; [exact Hs|].
  unfold SegmentationModule.segment.
  induction (splitIntoSentences text) as [|s ss IH].
  { symmetry. apply calculatePause_white. constructor. }
  cbn [List.flat_map List.concat].
  now rewrite pauses_app, calculatePause_app, IH, Hs.
Qed.

End SegmentationMore.

Section SegmentationCuts.

Import SegmentationModule Props.

Variable toLowerCase : jsstring -> jsstring.
Variable config : Config.

Lemma firstKeyword_first (lowerText : jsstring)
    (before after : list (jsstring * jsstring)) (keyword emotion : jsstring) :
  List.Forall (fun entry => includes lowerText (fst entry) = false) before ->
  includes lowerText keyword = true ->
  firstKeyword lowerText (before ++ (keyword, emotion) :: after) = Some emotion.
Proof.
  intros Hb Hk. induction Hb as [|[k e] l Hke _ IH]; simpl in *.
  - now rewrite Hk.
  - now rewrite Hke.
Qed.

(** X4. The order of the keyword table decides the emotion: the first entry
    of the table whose keyword the lowered text contains gives it, wherever
    the keywords stand in the text and whatever punctuation it holds. *)
Theorem analyzeEmotion_first_keyword (text : jsstring)
    (before after : list (jsstring * jsstring)) (keyword emotion : jsstring)
    (Htable : emotionKeywords config = before ++ (keyword, emotion) :: after)
    (Hbefore : List.Forall
                 (fun entry => includes (toLowerCase text) (fst entry) = false)
                 before)
    (Hhere : includes (toLowerCase text) keyword = true) :
  analyzeEmotion toLowerCase config text = emotion.
Proof.
  unfold analyzeEmotion. rewrite Htable.
  now rewrite (firstKeyword_first _ _ _ _ _ Hbefore Hhere).
Qed.

Lemma snoc_split {A} (cur before after : list A) (w mark : A) :
  cur ++ [w] = before ++ mark :: after ->
  (after = [] /\ before = cur /\ mark = w) \/
  (exists after', after = after' ++ [w] /\ cur = before ++ mark :: after').
Proof.
  intros H. destruct after as [|x after _] using List.rev_ind.
  - left. apply (List.app_inj_tail cur before w mark) in H.
    destruct H as [-> ->]. auto.
  - right. exists after.
    change (before ++ mark :: after ++ [x])
      with (before ++ (mark :: after) ++ [x]) in H.
    rewrite List.app_assoc in H. apply List.app_inj_tail in H.
    destruct H as [-> ->]. split; reflexivity.
Qed.

Lemma splitLongLoop_cut (emotion : jsstring) (words : list N) :
  forall currentSegment,
  (forall before mark after,
     currentSegment = before ++ mark :: after ->
     minSegmentLength config <= len (before ++ [mark]) ->
     isMark config mark = false) ->
  List.Forall (fun piece => cutAtFirstMark config (seg_text piece))
    (splitLongLoop config emotion words currentSegment).
Proof.
  induction words as [|word words IH]; intros cur J; cbn [splitLongLoop].
  - destruct (truthy (trim cur)); constructor; [|constructor].
    intros before mark after E _ Hlen. eapply J; eassumption.
  - assert (Hproper : forall before mark after,
              cur ++ [word] = before ++ mark :: after -> after <> [] ->
              minSegmentLength config <= len (before ++ [mark]) ->
              isMark config mark = false).
    { intros before mark after E Hne Hlen.
      destruct (snoc_split _ _ _ _ _ E) as [(-> & _)|(after' & _ & ->)];
        [congruence|].
      eapply J; [reflexivity | exact Hlen]. }
    destruct (isMark config word) eqn:Hm; cbn [andb].
    + destruct (Z.leb_spec (minSegmentLength config) (len (cur ++ [word]))).
      * constructor; [exact Hproper|]. apply IH.
        intros before mark after E. destruct before; discriminate.
      * apply IH. intros before mark after E Hlen.
        destruct after as [|x after].
        -- apply List.app_inj_tail in E. destruct E as [<- <-]. lia.
        -- eapply Hproper; [exact E | discriminate | exact Hlen].
    + apply IH. intros before mark after E Hlen.
      destruct after as [|x after].
      * apply List.app_inj_tail in E. destruct E as [_ <-]. exact Hm.
      * eapply Hproper; [exact E | discriminate | exact Hlen].
Qed.

(** X5. [splitLongSentence] cuts at the first mark it may cut at: in no
    piece does a punctuation mark of the configuration stand at index
    [minSegmentLength - 1] or later, unless it is the last character of the
    piece. *)
Theorem splitLongSentence_cuts_at_first_mark (sentence emotion : jsstring) :
  List.Forall (fun piece => cutAtFirstMark config (seg_text piece))
    (splitLongSentence config sentence emotion).
Proof.
  apply splitLongLoop_cut. intros before mark after E.
  destruct before; discriminate.
Qed.

End SegmentationCuts.

Section SegmentationMoreExamples.

Import SegmentationModule Props.

Lemma segment_of_white_space_witness :
  segment lowerASCII defaultConfig (lit "  ") = [].
Proof.
  refine (proj2 (segment_of_white_space lowerASCII defaultConfig (lit "  ") _)).
  repeat constructor.
Defined.

(** 恶心 stands before 开心 in the text and after it in the table. *)
Lemma analyzeEmotion_first_keyword_witness :
  analyzeEmotion lowerASCII defaultConfig [0x6076; 0x5FC3; 0x5F00; 0x5FC3]%N
  = lit "happy".
Proof.
  refine (analyzeEmotion_first_keyword lowerASCII defaultConfig
            [0x6076; 0x5FC3; 0x5F00; 0x5FC3]%N []
            (List.tl defaultKeywords) [0x5F00; 0x5FC3]%N (lit "happy") _ _ _).
  - reflexivity.
  - constructor.
  - reflexivity.
Defined.

End SegmentationMoreExamples.

(** ** GenerationModule: the channels of a stream *)

Section GenerationMore.

Import GenerationModule Props.

Variable toLowerCase : jsstring -> jsstring.
Variable config : Config.

Lemma pick_in_range {A} (xs : list A) (random : Q) :
  (0 <= random)%Q -> (random < 1)%Q -> xs <> [] ->
  exists x,
    at_index xs (Qfloor (random * inject_Z (Z.of_nat (List.length xs)))) = Some x
    /\ List.In x xs.
Proof.
  intros H0 H1 Hne.
  set (n := Z.of_nat (List.length xs)).
  assert (Hn : 0 < n) by (unfold n; destruct xs; [congruence | simpl; lia]).
  set (i := Qfloor (random * inject_Z n)).
  assert (Hlo : 0 <= i).
  { change 0 with (Qfloor (inject_Z 0)). apply Qfloor_resp_le.
    apply Qmult_le_0_compat; [exact H0|].
    change (inject_Z 0 <= inject_Z n)%Q. rewrite <- Zle_Qle. lia. }
  assert (Hhi : i < n).
  { rewrite Zlt_Qlt. eapply Qle_lt_trans; [apply Qfloor_le|].
    rewrite <- (Qmult_1_l (inject_Z n)) at 2.
    apply Qmult_lt_compat_r; [|exact H1].
    change (inject_Z 0 < inject_Z n)%Q. rewrite <- Zlt_Qlt. exact Hn. }
  unfold at_index.
  replace (i <? 0) with false by (symmetry; apply Z.ltb_ge; exact Hlo).
  destruct (List.nth_error xs (Z.to_nat i)) as [x|] eqn:E.
  - exists x. split; [reflexivity|]. eapply List.nth_error_In; exact E.
  - apply List.nth_error_None in E. unfold n in Hhi. lia.
Qed.

Lemma mapEmotionToMotion_own (random : Q) (emotion : jsstring)
    (ms : list jsstring) :
  emotionToMotion config !! emotion = Some ms ->
  mapEmotionToMotion config random emotion = [pick random ms].
Proof. intros H. unfold mapEmotionToMotion, read. now rewrite H. Qed.

(** X6. With a draw in [0, 1), the motion of a stream is one entry of the
    list the motion table holds for the emotion, never [undefined]; of the
    default list when the table holds none and the emotion names no member
    of [Object.prototype]; with an empty list it is the one entry
    [undefined], whatever the draw.  An emotion the table does not hold and
    that names a member of [Object.prototype], as "constructor" does, finds
    that member, not the default list, and the motion is the one entry
    [undefined]. *)
Theorem motion_pick_is_configured (random : Q) (emotion : jsstring)
    (Hlow : (0 <= random)%Q) (Hhigh : (random < 1)%Q) :
  let motions :=
    match emotionToMotion config !! emotion with
    | Some ms => Some ms
    | None =>
        if bool_decide (emotion ∈ objectPrototypeNames) then None
        else Some (defaultMotion config)
    end in
  match motions with
  | Some ms =>
      (ms <> [] ->
       exists m, mapEmotionToMotion config random emotion = [Some m]
                 /\ List.In m ms) /\
      (ms = [] -> mapEmotionToMotion config random emotion = [None])
  | None => mapEmotionToMotion config random emotion = [None]
  end.
Proof.
  assert (Hpick : forall ms,
            (ms <> [] -> exists m, [pick random ms] = [Some m] /\ List.In m ms) /\
            (ms = [] -> [pick random ms] = [None])).
  { intros ms. unfold pick. split.
    - intros Hne. destruct (pick_in_range ms random Hlow Hhigh Hne)
        as (m & -> & Hin). exists m. split; [reflexivity | exact Hin].
    - intros ->. unfold at_index. destruct (_ <? 0); [reflexivity|].
      now destruct (Z.to_nat _). }
  intros motions. subst motions. unfold mapEmotionToMotion, read.
  destruct (emotionToMotion config !! emotion) as [ms|]; [apply Hpick|].
  destruct (bool_decide (emotion ∈ objectPrototypeNames));
    [reflexivity | apply Hpick].
Qed.

Lemma orElse_truthy (v : option jsstring) (d : jsstring) :
  truthy d = true -> truthy (orElse v d) = true.
Proof.
  intros Hd. unfold orElse. destruct v as [s|]; [|exact Hd].
  destruct (truthy s) eqn:E; [exact E | exact Hd].
Qed.

(** The emotion [generate] looks up is the one of the segment, when it is
    not the default one. *)
Lemma orElse_inherited (v : option jsstring) :
  orElse v (lit "neutral") ∈ objectPrototypeNames ->
  v = Some (orElse v (lit "neutral")).
Proof.
  assert (Hneutral : lit "neutral" ∉ objectPrototypeNames).
  { apply (bool_decide_eq_false_1 _). reflexivity. }
  unfold orElse. destruct v as [s|]; [|intros H; now apply Hneutral in H].
  destruct (truthy s); [reflexivity | intros H; now apply Hneutral in H].
Qed.

(** X7. A generated stream names every visual channel: its scene is a string
    that is not empty, its background is one of the four backgrounds, its
    camera is set, its motion has one entry, its text is the text of the
    segment; it has no audio.  Its expression is a string, not empty when
    the default expression is not, but for a segment whose emotion the
    expression table does not hold and that names a member of
    [Object.prototype]: then the expression is that member, no string. *)
Theorem generate_names_every_channel (e : Entropy) (segment : SentenceSegment)
    (history : RenderStreamHistory)
    (Hdefault : truthy (defaultExpression config) = true) :
  let rs := generate toLowerCase config e segment history in
  match expression rs with
  | Some (Value x) => truthy x = true
  | Some (Inherited name) =>
      seg_emotion segment = Some name /\
      name ∈ objectPrototypeNames /\
      emotionToExpression config !! name = None
  | None => False
  end /\
  (exists s, scene rs = Some s /\ truthy s = true) /\
  (exists b, background rs = Some b /\
             List.In b [lit "bright_bg"; lit "dark_bg"; lit "mysterious_bg";
                        lit "neutral_bg"]) /\
  is_Some (camera rs) /\
  (exists m, motion rs = Some [m]) /\
  text rs = Some (seg_text segment) /\
  audio rs = None.
Proof.
  intros rs. subst rs. cbn [generate expression scene background camera motion
                            text audio].
  split; [|split; [|split; [|split; [|split; [|split]]]]].
  - unfold mapEmotionToExpression, read.
    destruct (emotionToExpression config !! _) as [x|] eqn:Hx.
    + destruct (truthy x) eqn:E; [exact E | exact Hdefault].
    + destruct (bool_decide_reflect
                  (orElse (seg_emotion segment) (lit "neutral")
                   ∈ objectPrototypeNames)) as [Hin|_]; [|exact Hdefault].
      split; [now apply orElse_inherited|]. split; assumption.
  - unfold determineScene.
    repeat match goal with
    | |- context [if ?b then _ else _] => destruct b
    end; eexists; (split; [reflexivity|]); try reflexivity.
    now apply orElse_truthy.
  - unfold determineBackground.
    repeat match goal with
    | |- context [if ?b then _ else _] => destruct b
    end; eexists; (split; [reflexivity|]); simpl; tauto.
  - eexists; reflexivity.
  - unfold mapEmotionToMotion. eexists; reflexivity.
  - reflexivity.
  - reflexivity.
Qed.

Lemma find_first {A} (p : A -> bool) (older newer : list A) (x : A) :
  List.Forall (fun y => p y = false) older -> p x = true ->
  List.find p (older ++ x :: newer) = Some x.
Proof.
  intros Ho Hx. induction Ho as [|y l Hy _ IH]; simpl.
  - now rewrite Hx.
  - now rewrite Hy.
Qed.

(** X8. When the text names no scene, the scene of the stream is the scene
    of the oldest of the last five entries of the history that has one,
    whatever the scenes of the entries after it. *)
Theorem scene_follows_oldest_recent (e : Entropy) (segment : SentenceSegment)
    (history : RenderStreamHistory) (older newer : list RenderStream)
    (entry : RenderStream)
    (Hnone : List.Forall
               (fun k => includes (toLowerCase (seg_text segment)) k = false)
               sceneKeywords)
    (Hrecent : sliceLast 5 (streams history) = older ++ entry :: newer)
    (Holder : List.Forall (fun s => hasScene s = false) older)
    (Hentry : hasScene entry = true) :
  scene (generate toLowerCase config e segment history) = scene entry.
Proof.
  cbn [generate scene]. unfold determineScene.
  unfold sceneKeywords in Hnone.
  repeat (apply List.Forall_cons_iff in Hnone; destruct Hnone as [?H Hnone]).
  repeat match goal with
  | H : includes _ _ = false |- _ => rewrite H; clear H
  end.
  cbn [orb]. rewrite Hrecent, (find_first _ _ _ _ Holder Hentry).
  unfold hasScene in Hentry. destruct (scene entry) as [s|]; [|discriminate].
  unfold orElse. now rewrite Hentry.
Qed.

End GenerationMore.

(** ** From the segmenter to the viewer: the vocabulary of the pipeline *)

Section Vocabulary.

Import Props.

Variable toLowerCase : jsstring -> jsstring.

Lemma firstKeyword_In (lowerText : jsstring)
    (entries : list (jsstring * jsstring)) (emotion : jsstring) :
  SegmentationModule.firstKeyword lowerText entries = Some emotion ->
  List.In emotion (List.map snd entries).
Proof.
  induction entries as [|[k e] l IH]; simpl; [discriminate|].
  destruct (includes lowerText k); [intros [= ->]; now left | right; auto].
Qed.

Lemma analyzeEmotion_default (text : jsstring) :
  List.In
    (SegmentationModule.analyzeEmotion toLowerCase
       SegmentationModule.defaultConfig text)
    pipelineEmotions.
Proof.
  unfold SegmentationModule.analyzeEmotion.
  destruct (SegmentationModule.firstKeyword _ _) as [e|] eqn:E.
  - apply firstKeyword_In in E.
    unfold SegmentationModule.defaultConfig, SegmentationModule.defaultKeywords in E.
    cbn [SegmentationModule.emotionKeywords List.map snd List.In] in E.
    unfold pipelineEmotions. cbn [List.In].
    repeat (destruct E as [<-|E]; [tauto|]). contradiction.
  - unfold pipelineEmotions. cbn [List.In].
    repeat match goal with
    | |- context [if ?b then _ else _] => destruct b
    end; tauto.
Qed.

Lemma splitLongLoop_emotion (config : SegmentationModule.Config)
    (emotion : jsstring) (words : list N) :
  forall currentSegment,
  List.Forall (fun piece => seg_emotion piece = Some emotion)
    (SegmentationModule.splitLongLoop config emotion words currentSegment).
Proof.
  induction words as [|word words IH]; intros cur;
    cbn [SegmentationModule.splitLongLoop].
  - destruct (truthy _); repeat constructor.
  - destruct (_ && _); [constructor; [reflexivity|]|]; apply IH.
Qed.

Lemma segment_emotions (text : jsstring) :
  List.Forall
    (fun piece => exists emotion,
       seg_emotion piece = Some emotion /\ List.In emotion pipelineEmotions)
    (SegmentationModule.segment toLowerCase SegmentationModule.defaultConfig text).
Proof.
  unfold SegmentationModule.segment.
  induction (SegmentationModule.splitIntoSentences text) as [|s ss IH];
    [constructor|].
  cbn [List.flat_map]. apply List.Forall_app. split; [|exact IH].
  unfold SegmentationModule.segmentSentence.
  pose proof (analyzeEmotion_default s) as He.
  destruct (_ <? _).
  - eapply List.Forall_impl; [|apply splitLongLoop_emotion].
    intros piece ->. eauto.
  - repeat constructor. eauto.
Qed.

(** X9. Every stream the default pipeline generates speaks the vocabulary of
    the adapter: for a segment of [segment(text)] and a draw in [0, 1), the
    expression of the generated stream is a key of the expression table of
    the adapter and its motion is one name that is a key of the motion
    table, so neither [mapExpressionToVRM] nor [mapMotionToVRM] falls back
    on its default. *)
Theorem pipeline_vocabulary_is_mapped (text : jsstring)
    (piece : SentenceSegment) (e : Entropy) (history : RenderStreamHistory)
    (Hpiece : List.In piece
                (SegmentationModule.segment toLowerCase
                   SegmentationModule.defaultConfig text))
    (Hlow : (0 <= rand_motion e)%Q) (Hhigh : (rand_motion e < 1)%Q) :
  let rs :=
    GenerationModule.generate toLowerCase GenerationModule.defaultConfig e
      piece history in
  (exists x, expression rs = Some (Value x) /\
             is_Some (CameraModeAdapter.expressionMap !! x)) /\
  (exists m, motion rs = Some [Some m] /\
             is_Some (CameraModeAdapter.motionMap !! m)).
Proof.
  intros rs. subst rs.
  pose proof (segment_emotions text) as Hall.
  rewrite List.Forall_forall in Hall.
  destruct (Hall _ Hpiece) as (emotion & Hemotion & Hin).
  cbn [GenerationModule.generate expression motion]. rewrite Hemotion.
  unfold pipelineEmotions in Hin. cbn [List.In] in Hin.
  repeat (destruct Hin as [<-|Hin]);
    try contradiction;
    (split;
     [ eexists; split; [reflexivity | vm_compute; eauto]
     | erewrite (mapEmotionToMotion_own _ _ _ _) by reflexivity;
       unfold GenerationModule.pick;
       match goal with
       | |- context [at_index ?xs _] =>
           let xs' := eval vm_compute in xs in
           change xs with xs';
           destruct (pick_in_range xs' (rand_motion e) Hlow Hhigh)
             as (m & Hm & Hlist); [discriminate|];
           change (Z.of_nat (List.length xs')) with 2 in Hm |- *
       end ]).
  all: try (rewrite Hm; exists m; split; [reflexivity|];
            cbn [List.In] in Hlist;
            destruct Hlist as [<-|[<-|[]]]; vm_compute; eauto).
Qed.

End Vocabulary.

Section GenerationMoreExamples.

Import GenerationModule Props.

(** A sad segment picks from "head_down" and "sigh"; a segment whose
    emotion is "constructor" gets the motion [undefined]. *)
Lemma motion_pick_is_configured_witness :
  (exists m, mapEmotionToMotion defaultConfig (1 # 2) (lit "sad") = [Some m]
             /\ List.In m [lit "head_down"; lit "sigh"]) /\
  mapEmotionToMotion defaultConfig (1 # 2) (lit "constructor") = [None].
Proof.
  split.
  - refine (proj1 (motion_pick_is_configured defaultConfig (1 # 2) (lit "sad")
                     _ _) _).
    + vm_compute. discriminate.
    + reflexivity.
    + vm_compute. discriminate.
  - refine (motion_pick_is_configured defaultConfig (1 # 2) (lit "constructor")
              _ _).
    + vm_compute. discriminate.
    + reflexivity.
Defined.

(** The stream of a segment whose emotion is "constructor": its expression
    is the member of [Object.prototype] of that name. *)
Lemma generate_names_every_channel_witness :
  let rs :=
    generate lowerASCII defaultConfig entropy0
      (mkSegment (Some (lit "constructor")) (Some false) (Some 0) (lit "ok"))
      (mkHistory (-1) 50 []) in
  expression rs = Some (Inherited (lit "constructor")) /\
  match expression rs with
  | Some (Value x) => truthy x = true
  | Some (Inherited name) =>
      Some (lit "constructor") = Some name /\
      name ∈ objectPrototypeNames /\
      emotionToExpression defaultConfig !! name = None
  | None => False
  end /\
  exists s, scene rs = Some s /\ truthy s = true.
Proof.
  intros rs. split; [reflexivity|].
  pose proof (generate_names_every_channel lowerASCII defaultConfig entropy0
                (mkSegment (Some (lit "constructor")) (Some false) (Some 0)
                   (lit "ok"))
                (mkHistory (-1) 50 []) eq_refl) as H.
  split; [exact (proj1 H) | exact (proj1 (proj2 H))].
Defined.

(** After a stream in the park and a later one on the stage, a text that
    names no scene is set in the park. *)
Lemma scene_follows_oldest_recent_witness :
  scene (generate lowerASCII defaultConfig entropy0 (neutralSegment (lit "ok"))
           (mkHistory 1 50 [streamWithScene (lit "park");
                            streamWithScene (lit "stage")]))
  = Some (lit "park").
Proof.
  refine (scene_follows_oldest_recent lowerASCII defaultConfig entropy0
            (neutralSegment (lit "ok"))
            (mkHistory 1 50 [streamWithScene (lit "park");
                             streamWithScene (lit "stage")])
            [] [streamWithScene (lit "stage")] (streamWithScene (lit "park"))
            _ _ _ _).
  - repeat constructor.
  - reflexivity.
  - constructor.
  - reflexivity.
Defined.

Lemma pipeline_vocabulary_is_mapped_witness :
  exists m,
    motion (generate lowerASCII defaultConfig entropy0
              (mkSegment (Some (lit "surprised")) (Some true) (Some 300)
                 [0x4F60; 0x597D; 0xFF01]%N)
              (mkHistory (-1) 50 [])) = Some [Some m]
    /\ is_Some (CameraModeAdapter.motionMap !! m).
Proof.
  refine (proj2 (pipeline_vocabulary_is_mapped lowerASCII greeting
                   (mkSegment (Some (lit "surprised")) (Some true) (Some 300)
                      [0x4F60; 0x597D; 0xFF01]%N)
                   entropy0 (mkHistory (-1) 50 []) _ _ _)).
  - left. reflexivity.
  - vm_compute. discriminate.
  - reflexivity.
Defined.

End GenerationMoreExamples.

(** ** VirtualHumanController: the registry, the history and the trace *)

Section ControllerMore.

Import VirtualHumanController Props.

Variable entropy : nat -> Entropy.

(** X10. A module is found under the name it was registered under, a later
    registration under the same name replaces it, and the other names are
    as they were; registering changes neither the state, the history nor the
    configuration, and emits one [moduleRegistered] event. *)
Theorem registerModule_then_getModule (name other : string)
    (module module' : ModuleObj) (c : Controller) :
  getModule other (registerModule name module c)
  = (if decide (name = other) then Some module else getModule other c) /\
  getModule name (registerModule name module' (registerModule name module c))
  = Some module' /\
  state (registerModule name module c) = state c /\
  history (registerModule name module c) = history c /\
  config (registerModule name module c) = config c /\
  trace (registerModule name module c)
  = trace c ++ [moduleRegistered name module].
Proof.
  unfold getModule, registerModule. cbn [modules emit_ with_modules].
  split; [apply lookup_insert|]. split; [apply lookup_insert_eq|].
  repeat split.
Qed.

Lemma appendAll_maxHistory (rss : list RenderStream) :
  forall h, maxHistory (appendAll rss h) = maxHistory h.
Proof.
  unfold appendAll. induction rss as [|rs rss IH]; intros h; [reflexivity|].
  cbn [List.fold_left]. rewrite IH. unfold addToHistory_.
  destruct (_ <? _); reflexivity.
Qed.

(** What [segmentText] and [generateRenderStream] give depends on the
    modules, the configuration and the history only. *)
Lemma segmentText_snd text c d :
  modules c = modules d -> config c = config d ->
  snd (segmentText text c) = snd (segmentText text d).
Proof.
  intros Hm Hc. unfold segmentText, bind, get, getModule, await, throw, ret.
  rewrite Hm, Hc.
  destruct (modules d !! "segmentation") as [[]|];
    destruct (enableSmartSegmentation (config d)); reflexivity.
Qed.

Lemma generateRenderStream_snd e segment c d :
  modules c = modules d -> config c = config d -> history c = history d ->
  snd (generateRenderStream e segment c) = snd (generateRenderStream e segment d).
Proof.
  intros Hm Hc Hh.
  unfold generateRenderStream, bind, get, getModule, await, throw, ret.
  rewrite Hm, Hc, Hh.
  destruct (modules d !! "generation") as [[]|]; reflexivity.
Qed.

Lemma streamsOf_ext c d segments :
  modules c = modules d -> config c = config d ->
  forall i h, streamsOf entropy c i segments h = streamsOf entropy d i segments h.
Proof.
  intros Hm Hc. induction segments as [|segment rest IH]; intros i h;
    [reflexivity|].
  cbn [streamsOf].
  rewrite (generateRenderStream_snd _ _ (with_history h c) (with_history h d))
    by first [exact Hm | exact Hc | reflexivity].
  destruct (snd _); [now rewrite IH | reflexivity].
Qed.

Lemma streamsOf_cons i segment rest c :
  streamsOf entropy c i (segment :: rest) (history c) =
  match snd (generateRenderStream (entropy i) segment c) with
  | Normal rs =>
      rs :: streamsOf entropy c (S i) rest (addToHistory_ rs (history c))
  | Throw _ => []
  end.
Proof.
  cbn [streamsOf].
  now rewrite (generateRenderStream_snd _ _ (with_history (history c) c) c)
    by reflexivity.
Qed.

(** The loop appends what it generates, in the order of the segments, and
    emits it in that order; only the stream whose transition threw is
    appended and not emitted. *)
Lemma forEachSegment_appends segments :
  forall i c c' r,
  forEachSegment entropy i segments c = (c', r) ->
  exists rss news later,
    history c' = appendAll rss (history c) /\
    trace c' = trace c ++ news /\
    streamsOf entropy c i segments (history c) = rss ++ later /\
    match r with
    | Normal _ =>
        readyStreams news = rss /\ later = [] /\
        List.length rss = List.length segments
    | Throw _ =>
        readyStreams news = rss \/ exists rs, rss = readyStreams news ++ [rs]
    end.
Proof.
  induction segments as [|segment rest IH]; intros i c c' r.
  - intros [= <- <-]. exists [], [], []. rewrite List.app_nil_r. repeat split.
  - rewrite forEachSegment_cons, streamsOf_cons.
    destruct (snd (generateRenderStream (entropy i) segment c)) as [rs|e].
    2:{ intros [= <- <-]. exists [], [], []. rewrite List.app_nil_r.
        repeat split. now left. }
    rewrite triggerSeamlessTransition_cases.
    set (c0 := with_history (addToHistory_ rs (history c)) c).
    assert (Hstep : forall pre c2,
              history c2 = addToHistory_ rs (history c) ->
              modules c2 = modules c -> config c2 = config c ->
              trace c2 = trace c ++ pre ++ [renderStreamReady rs] ->
              readyStreams pre = [] ->
              forEachSegment entropy (S i) rest c2 = (c', r) ->
              exists rss news later,
                history c' = appendAll rss (history c) /\
                trace c' = trace c ++ news /\
                rs :: streamsOf entropy c (S i) rest (addToHistory_ rs (history c))
                = rss ++ later /\
                match r with
                | Normal _ =>
                    readyStreams news = rss /\ later = [] /\
                    List.length rss = S (List.length rest)
                | Throw _ =>
                    readyStreams news = rss \/
                    exists rs, rss = readyStreams news ++ [rs]
                end).
    { intros pre c2 Hh Hm Hc Ht Hpre Hloop.
      destruct (IH _ _ _ _ Hloop) as (rss & news & later & Hh' & Ht' & Hs & Hr).
      exists (rs :: rss), (pre ++ [renderStreamReady rs] ++ news), later.
      rewrite Hh', Hh, Ht', Ht, !readyStreams_app, Hpre, <- !List.app_assoc.
      split; [reflexivity|]. split; [reflexivity|].
      rewrite (streamsOf_ext c2 c) in Hs by assumption. rewrite Hh in Hs.
      split; [now rewrite Hs|].
      cbn [readyStreams app]. destruct r as [[]|e].
      - destruct Hr as (Hr & Hl & Hn). rewrite Hr. cbn [List.length].
        now rewrite Hn.
      - destruct Hr as [Hr|(x & Hr)]; [left; now rewrite Hr|].
        right. exists x. now rewrite Hr. }
    destruct (negb (enableSeamlessTransition (config c0))).
    { apply (Hstep []); reflexivity. }
    destruct (getModule "transition" c0) as [module|].
    2:{ apply (Hstep []); reflexivity. }
    destruct (callTransition module rs (history c0)) as [[]|e].
    + apply (Hstep [stateChanged (state c0) TRANSITIONING;
                    stateChanged TRANSITIONING RENDERING]);
        try reflexivity.
      simpl; now rewrite <- !List.app_assoc.
    + intros [= <- <-].
      exists [rs], [stateChanged (state c0) TRANSITIONING],
        (streamsOf entropy c (S i) rest (addToHistory_ rs (history c))).
      repeat split. right. exists rs. reflexivity.
Qed.

Lemma processBody_appends text c c1 r :
  processBody entropy text c = (c1, r) ->
  exists rss news later,
    history c1 = appendAll rss (history c) /\
    trace c1 = trace c ++ news /\
    streamsOf entropy c 0 (segmentsOf text c) (history c) = rss ++ later /\
    match r with
    | Normal _ =>
        readyStreams news = rss /\ later = [] /\
        List.length rss = List.length (segmentsOf text c)
    | Throw _ =>
        readyStreams news = rss \/ exists rs, rss = readyStreams news ++ [rs]
    end.
Proof.
  unfold processBody. unfold bind at 1 2 3. unfold setState, emit, modify.
  set (c0 := emit_ (aiResponseReceived text) (setState_ PROCESSING c)).
  unfold segmentsOf.
  rewrite (segmentText_snd text c c0) by reflexivity.
  pose proof (segmentText_fst text c0) as Hseg.
  destruct (segmentText text c0) as [c2 [segments|e]]; simpl in Hseg; subst c2;
    cbn [snd].
  2:{ intros [= <- <-].
      exists [], [stateChanged (state c) PROCESSING; aiResponseReceived text], [].
      split; [reflexivity|]. split; [|split; [reflexivity | now left]].
      simpl. now rewrite <- !List.app_assoc. }
  unfold bind at 1.
  destruct (forEachSegment entropy 0 segments c0) as [c2 [[]|e]] eqn:Hloop;
    destruct (forEachSegment_appends _ _ _ _ _ Hloop)
      as (rss & news & later & Hh & Ht & Hs & Hr);
    rewrite (streamsOf_ext c0 c) in Hs by reflexivity.
  - unfold bind, modify. intros [= <- <-].
    exists rss, ([stateChanged (state c) PROCESSING; aiResponseReceived text]
                 ++ news ++ [stateChanged (state c2) IDLE;
                             aiResponseProcessed text segments]), later.
    split; [exact Hh|]. split; [|split; [exact Hs|]].
    + simpl. rewrite Ht. simpl. now rewrite <- !List.app_assoc.
    + destruct Hr as (Hr & Hl & Hn). split; [|split; assumption].
      cbn [app readyStreams]. rewrite readyStreams_app, Hr. cbn [readyStreams].
      apply List.app_nil_r.
  - intros [= <- <-].
    exists rss, ([stateChanged (state c) PROCESSING; aiResponseReceived text]
                 ++ news), later.
    split; [exact Hh|]. split; [|split; [exact Hs | exact Hr]].
    rewrite Ht. simpl. now rewrite <- !List.app_assoc.
Qed.

(** X11. Whatever the modules, a call of [processAIResponse] only appends to
    the history, and in the order of the segments: the streams it appends
    are the streams [generateRenderStream] makes of the segments of the
    text, from the first one on, each from the history that holds the ones
    before it; when the call returns they are all of them, one for each
    segment, and the streams announced by [renderStreamReady] are the
    streams appended, in that order; when it throws, the streams announced
    are the appended streams or all of them but the last, the one whose
    transition failed.  Nothing appended is taken back. *)
Theorem announced_streams_are_appended (text : jsstring) (c : Controller) :
  let made := streamsOf entropy c 0 (segmentsOf text c) (history c) in
  exists rss news later,
    history (fst (processAIResponse entropy text c))
    = appendAll rss (history c) /\
    trace (fst (processAIResponse entropy text c)) = trace c ++ news /\
    made = rss ++ later /\
    match snd (processAIResponse entropy text c) with
    | Normal _ =>
        readyStreams news = rss /\ later = [] /\
        List.length rss = List.length (segmentsOf text c)
    | Throw _ =>
        readyStreams news = rss \/ exists rs, rss = readyStreams news ++ [rs]
    end.
Proof.
  intros made. subst made. rewrite processAIResponse_cases.
  destruct (processBody entropy text c) as [c1 [[]|e]] eqn:Hbody;
    destruct (processBody_appends _ _ _ _ Hbody)
      as (rss & news & later & Hh & Ht & Hs & Hr);
    cbn [fst snd].
  - exists rss, news, later. auto.
  - destruct (bool_decide ("error" ∈ listeners c1)); cbn [fst snd].
    + exists rss, (news ++ [stateChanged (state c1) ERROR;
                            error e (lit "processAIResponse")]), later.
      split; [exact Hh|]. split; [|split; [exact Hs|]].
      * simpl. rewrite Ht. now rewrite <- !List.app_assoc.
      * rewrite readyStreams_app. cbn [readyStreams]. rewrite List.app_nil_r.
        exact Hr.
    + exists rss, (news ++ [stateChanged (state c1) ERROR]), later.
      split; [exact Hh|]. split; [|split; [exact Hs|]].
      * simpl. rewrite Ht. now rewrite <- !List.app_assoc.
      * rewrite readyStreams_app. cbn [readyStreams]. rewrite List.app_nil_r.
        exact Hr.
Qed.


Lemma processBody_unfold text c :
  processBody entropy text c =
  let c0 := emit_ (aiResponseReceived text) (setState_ PROCESSING c) in
  match snd (segmentText text c0) with
  | Throw err => (c0, Throw err)
  | Normal segments =>
      match forEachSegment entropy 0 segments c0 with
      | (c2, Normal _) =>
          (emit_ (aiResponseProcessed text segments) (setState_ IDLE c2),
           Normal tt)
      | (c2, Throw err) => (c2, Throw err)
      end
  end.
Proof.
  unfold processBody. unfold bind at 1 2 3. unfold setState, emit, modify.
  cbv zeta.
  pose proof (segmentText_fst text
                (emit_ (aiResponseReceived text) (setState_ PROCESSING c))) as Hseg.
  destruct (segmentText text _) as [c1 [segments|err]]; simpl in Hseg; subst c1;
    cbn [snd]; [|reflexivity].
  unfold bind at 1.
  destruct (forEachSegment entropy 0 segments _) as [c2 [[]|err]]; reflexivity.
Qed.

(** X12. A call of [processAIResponse] changes neither the configuration,
    nor the registered modules, nor the capacity of the history, and it
    removes nothing from the trace; when it returns, the state is [IDLE], no
    timer was added and no [error] event was emitted. *)
Theorem processAIResponse_frame (text : jsstring) (c : Controller) :
  let c' := fst (processAIResponse entropy text c) in
  config c' = config c /\
  modules c' = modules c /\
  maxHistory (history c') = maxHistory (history c) /\
  (exists news, trace c' = trace c ++ news) /\
  match snd (processAIResponse entropy text c) with
  | Normal _ =>
      state c' = IDLE /\ timers c' = timers c /\
      List.filter isErrorEvent (List.skipn (List.length (trace c)) (trace c')) = []
  | Throw _ => state c' = ERROR
  end.
Proof.
  intros c'. subst c'.
  rewrite processAIResponse_cases.
  destruct (processBody entropy text c) as [c1 [[]|e]] eqn:Hbody;
    destruct (processBody_appends _ _ _ _ Hbody)
      as (rss & news0 & later & Hh & _);
    destruct (processBody_framed _ _ _ _ _ Hbody)
      as (news & (Hc & Hm & Ht & Hl & Htr & Hne) & Hend);
    [|destruct (bool_decide ("error" ∈ listeners c1))]; cbn [fst snd];
    cbn [history setTimeout_ emit_ setState_ with_state];
    rewrite Hh, appendAll_maxHistory.
  - repeat split; try assumption; eauto.
    rewrite Htr, List.skipn_app, List.skipn_all, Nat.sub_diag. simpl.
    apply filter_no_error in Hne. exact Hne.
  - repeat split; try assumption. simpl. rewrite Htr.
    eexists. rewrite <- !List.app_assoc. reflexivity.
  - repeat split; try assumption. simpl. rewrite Htr.
    eexists. rewrite <- !List.app_assoc. reflexivity.
Qed.

End ControllerMore.

(** ** VirtualHumanController: the paths of a call *)

Section ControllerPaths.

Import VirtualHumanController Props.

Variable entropy : nat -> Entropy.
Variable toLowerCase : jsstring -> jsstring.

(** X13. With no module registered, as after [destroy], a call still runs:
    the whole text, be it empty, is one neutral segment; the controller
    builds the stream itself from its configuration, appends it and
    announces it once, transitions enabled or not, and ends in [IDLE]. *)
Theorem processAIResponse_without_modules (text : jsstring) (c : Controller)
    (Hnone : modules c = ∅) :
  let rs := fallbackStream (config c) (entropy 0) text in
  processAIResponse entropy text c =
  (mkController IDLE (addToHistory_ rs (history c)) (config c) (modules c)
     (trace c ++ [stateChanged (state c) PROCESSING;
                  aiResponseReceived text;
                  renderStreamReady rs;
                  stateChanged PROCESSING IDLE;
                  aiResponseProcessed text
                    [mkSegment (Some (lit "neutral")) (Some false) (Some 0) text]])
     (timers c) (listeners c),
   Normal tt).
Proof.
  intros rs. subst rs. destruct c as [s h g m t tm ls].
  cbn [modules] in Hnone. subst m.
  rewrite processAIResponse_cases, processBody_unfold. cbv zeta.
  unfold setState_, with_state, emit_.
  cbn [state history config modules trace timers listeners].
  unfold segmentText at 1, bind at 1, get at 1, getModule at 1.
  cbn [modules]. rewrite lookup_empty. cbn [ret snd].
  rewrite forEachSegment_cons.
  unfold generateRenderStream at 1, bind at 1, get at 1, getModule at 1.
  cbn [modules]. rewrite lookup_empty.
  cbn [ret snd seg_text seg_emotion config history].
  rewrite triggerSeamlessTransition_cases.
  unfold getModule at 1, with_history.
  cbn [state history config modules trace timers listeners].
  rewrite lookup_empty.
  assert (Hemit : forall (b : bool) (x : Controller * Completion unit),
            (if b then x else x) = x) by (intros [] x; reflexivity).
  rewrite Hemit. unfold emit_.
  cbn [forEachSegment ret state history config modules trace timers listeners].
  unfold fallbackStream. rewrite <- !List.app_assoc. reflexivity.
Qed.

(** X14. A text of white space only, the empty text among them, leaves the
    history of a controller with the segmentation module of the factory as
    it was: the call generates no stream, announces none, and goes from
    [PROCESSING] back to [IDLE]. *)
Theorem processAIResponse_of_white_space (text : jsstring) (c : Controller)
    (Hmodule : getModule "segmentation" c
               = Some (VirtualHumanFactory.segmentationModule toLowerCase))
    (Hsmart : enableSmartSegmentation (config c) = true)
    (Hwhite : List.Forall (fun ch => isWhiteSpace ch = true) text) :
  processAIResponse entropy text c =
  (mkController IDLE (history c) (config c) (modules c)
     (trace c ++ [stateChanged (state c) PROCESSING;
                  aiResponseReceived text;
                  stateChanged PROCESSING IDLE;
                  aiResponseProcessed text []])
     (timers c) (listeners c),
   Normal tt).
Proof.
  rewrite processAIResponse_cases. unfold processBody.
  unfold bind at 1 2 3, setState, emit, modify.
  unfold segmentText at 1, bind at 1, get at 1.
  change (getModule "segmentation"
            (emit_ (aiResponseReceived text) (setState_ PROCESSING c)))
    with (getModule "segmentation" c).
  change (config (emit_ (aiResponseReceived text) (setState_ PROCESSING c)))
    with (config c).
  rewrite Hmodule, Hsmart.
  cbn [VirtualHumanFactory.segmentationModule await].
  unfold SegmentationModule.segment.
  rewrite (splitIntoSentences_white text Hwhite).
  cbn [List.flat_map]. unfold bind at 1. cbn [forEachSegment].
  unfold ret, bind, modify, setState_, with_state. unfold emit_.
  cbn [state history config modules trace timers listeners].
  rewrite <- !List.app_assoc. reflexivity.
Qed.

Lemma forEachSegment_factory (seamless : bool) segments :
  forall i c,
  getModule "generation" c
  = Some (VirtualHumanFactory.generationModule toLowerCase) ->
  getModule "transition" c = Some VirtualHumanFactory.transitionModule ->
  enableSeamlessTransition (config c) = seamless ->
  forEachSegment entropy i segments c =
  (let rss := generated toLowerCase entropy i segments (history c) in
   mkController (stateAfterLoop seamless (state c) rss)
     (appendAll rss (history c)) (config c) (modules c)
     (trace c ++ loopEvents seamless (state c) rss) (timers c) (listeners c),
   Normal tt).
Proof.
  induction segments as [|segment rest IH]; intros i c Hgen Htrans Hflag.
  - destruct c. simpl. now rewrite List.app_nil_r.
  - rewrite forEachSegment_cons.
    unfold generateRenderStream at 1, bind at 1, get at 1. rewrite Hgen.
    cbn [VirtualHumanFactory.generationModule await snd].
    rewrite triggerSeamlessTransition_cases.
    cbn [config with_history]. rewrite Hflag.
    change (getModule "transition" (with_history _ c))
      with (getModule "transition" c).
    rewrite Htrans.
    cbn [VirtualHumanFactory.transitionModule callTransition
         TransitionModule.transition].
    destruct seamless; cbn [negb].
    + rewrite (IH (S i)); try assumption.
      cbn [generated appendAll List.fold_left loopEvents turnEvents
           stateAfterTurn stateAfterLoop].
      unfold setState_, with_state, with_history. unfold emit_.
      cbn [state history config modules trace timers listeners].
      rewrite <- !List.app_assoc.
      destruct (generated toLowerCase entropy (S i) rest _); reflexivity.
    + rewrite (IH (S i)); try assumption.
      cbn [generated appendAll List.fold_left loopEvents turnEvents
           stateAfterTurn stateAfterLoop].
      unfold with_history. unfold emit_.
      cbn [state history config modules trace timers listeners].
      rewrite <- !List.app_assoc.
      destruct (generated toLowerCase entropy (S i) rest _); reflexivity.
Qed.

(** X15. With the modules of the factory and the seamless transition
    enabled, as in the high performance controller, every call returns and
    ends in [IDLE]; each stream is appended, then the state goes to
    [TRANSITIONING], then to [RENDERING], then the stream is announced; the
    first stream enters [TRANSITIONING] from [PROCESSING], the later ones
    from [RENDERING]; no [error] event is emitted. *)
Theorem seamless_controller_renders_each_stream (text : jsstring)
    (c : Controller)
    (Hmod : modules c
            = modules (VirtualHumanFactory.createHighPerformanceController
                         toLowerCase))
    (Hsmart : enableSmartSegmentation (config c) = true)
    (Hseamless : enableSeamlessTransition (config c) = true) :
  let segments :=
    SegmentationModule.segment toLowerCase SegmentationModule.defaultConfig text in
  let rss := generated toLowerCase entropy 0 segments (history c) in
  let news :=
    [stateChanged (state c) PROCESSING; aiResponseReceived text]
    ++ loopEvents true PROCESSING rss
    ++ [stateChanged (stateAfterLoop true PROCESSING rss) IDLE;
        aiResponseProcessed text segments] in
  processAIResponse entropy text c =
    (mkController IDLE (appendAll rss (history c)) (config c) (modules c)
       (trace c ++ news) (timers c) (listeners c),
     Normal tt) /\
  readyStreams news = rss /\
  List.filter isErrorEvent news = [].
Proof.
  intros segments rss news.
  assert (Hseg : getModule "segmentation" c
                 = Some (VirtualHumanFactory.segmentationModule toLowerCase))
    by (unfold getModule; rewrite Hmod; reflexivity).
  assert (Hgen : getModule "generation" c
                 = Some (VirtualHumanFactory.generationModule toLowerCase))
    by (unfold getModule; rewrite Hmod; reflexivity).
  assert (Htrans : getModule "transition" c
                   = Some VirtualHumanFactory.transitionModule)
    by (unfold getModule; rewrite Hmod; reflexivity).
  assert (Hready : forall before l,
            readyStreams (loopEvents true before l) = l).
  { intros before l. revert before.
    induction l as [|x l IH]; intros before; [reflexivity|].
    cbn [loopEvents turnEvents app readyStreams]. now rewrite IH. }
  assert (Hquiet : forall before l,
            List.filter isErrorEvent (loopEvents true before l) = []).
  { intros before l. revert before.
    induction l as [|x l IH]; intros before; [reflexivity|].
    cbn [loopEvents turnEvents app List.filter isErrorEvent]. apply IH. }
  split; [|split].
  - rewrite processAIResponse_cases. unfold processBody.
    unfold bind at 1 2 3, setState, emit, modify.
    unfold segmentText at 1, bind at 1, get at 1.
    change (getModule "segmentation"
              (emit_ (aiResponseReceived text) (setState_ PROCESSING c)))
      with (getModule "segmentation" c).
    change (config (emit_ (aiResponseReceived text) (setState_ PROCESSING c)))
      with (config c).
    rewrite Hseg, Hsmart.
    cbn [VirtualHumanFactory.segmentationModule await].
    fold segments. unfold bind at 1.
    rewrite (forEachSegment_factory true) by assumption.
    unfold bind, modify, setState_, with_state. unfold emit_.
    cbn [state history config modules trace timers listeners].
    fold rss. unfold news. rewrite <- !List.app_assoc. reflexivity.
  - unfold news. cbn [app readyStreams].
    rewrite readyStreams_app, Hready. cbn [readyStreams].
    apply List.app_nil_r.
  - unfold news. cbn [app List.filter isErrorEvent].
    rewrite List.filter_app, Hquiet. reflexivity.
Qed.

(** X16. Nothing cancels the recovery timer: after a call that failed
    while a listener was attached to [error], and [destroy], which removes
    the listeners, the modules and the history, the timer of 5000 ms is
    still pending, and when it fires on the destroyed controller it sets the
    state from [ERROR] to [IDLE] and emits the state change. *)
Theorem recovery_timer_survives_destroy (text : jsstring) (c c' : Controller)
    (e : JsError)
    (Hlistener : "error" ∈ listeners c)
    (Hfail : processAIResponse entropy text c = (c', Throw e)) :
  timers (destroy c') = timers c ++ [(resetErrorState, 5000)] /\
  state (destroy c') = ERROR /\
  modules (destroy c') = ∅ /\
  listeners (destroy c') = [] /\
  streams (history (destroy c')) = [] /\
  state (fire resetErrorState (destroy c')) = IDLE /\
  trace (fire resetErrorState (destroy c'))
  = trace c' ++ [historyCleared; stateChanged ERROR IDLE].
Proof.
  rewrite processAIResponse_cases in Hfail.
  destruct (processBody entropy text c) as [c1 [[]|e1]] eqn:Hbody;
    [discriminate|].
  destruct (processBody_framed _ _ _ _ _ Hbody)
    as (news & (_ & _ & Ht & Hl & _) & _).
  rewrite Hl, bool_decide_eq_true_2 in Hfail by exact Hlistener.
  injection Hfail as <- <-.
  repeat split.
  - simpl. now rewrite Ht.
  - simpl. now rewrite <- !List.app_assoc.
Qed.

(** X24. While a listener is attached to [error], a call of
    [processAIResponse] that fails throws to its caller what its [try]
    block threw, leaves the controller in [ERROR], emits one [error] event,
    the last event of the call, which carries what was thrown and the
    context "processAIResponse", and schedules one timer of 5000 ms; when
    that timer fires it sets the state to [IDLE] if the state is [ERROR] at
    that moment, and does nothing otherwise. *)
Theorem handled_error_schedules_recovery (text : jsstring) (c c' : Controller)
    (e : JsError)
    (Hlistener : "error" ∈ listeners c)
    (Hfail : processAIResponse entropy text c = (c', Throw e)) :
  snd (processBody entropy text c) = Throw e /\
  state c' = ERROR /\
  timers c' = timers c ++ [(resetErrorState, 5000)] /\
  (exists news,
     trace c' = trace c ++ news ++ [error e (lit "processAIResponse")] /\
     List.filter isErrorEvent news = []) /\
  (forall d, state d = ERROR ->
     fire resetErrorState d = setState_ IDLE d /\
     state (fire resetErrorState d) = IDLE) /\
  (forall d, state d <> ERROR -> fire resetErrorState d = d).
Proof.
  rewrite processAIResponse_cases in Hfail.
  destruct (processBody entropy text c) as [c1 [[]|e1]] eqn:Hbody;
    [discriminate|].
  destruct (processBody_framed _ _ _ _ _ Hbody)
    as (news & (_ & _ & Ht & Hl & Htr & Hne) & _).
  rewrite Hl, bool_decide_eq_true_2 in Hfail by exact Hlistener.
  injection Hfail as <- <-.
  split; [reflexivity|]. split; [reflexivity|].
  split; [simpl; now rewrite Ht|]. split; [|split].
  - exists ([stateChanged (state c) PROCESSING; aiResponseReceived text]
            ++ news ++ [stateChanged (state c1) ERROR]).
    split.
    + simpl. rewrite Htr. simpl. now rewrite <- !List.app_assoc.
    + apply filter_no_error. rewrite List.app_assoc.
      apply List.Forall_app. split; [exact Hne | repeat constructor].
  - intros d Hd. unfold fire. rewrite bool_decide_eq_true_2 by exact Hd.
    split; reflexivity.
  - intros d Hd. unfold fire. now rewrite bool_decide_eq_false_2 by exact Hd.
Qed.

(** X25. While no listener is attached to [error], as on a controller fresh
    from the factory or after [destroy], a call of [processAIResponse] that
    fails leaves the controller in [ERROR] for good: no [error] event is
    dispatched, no timer is scheduled, and the caller gets the [Error] of
    the [emit], which wraps what the [try] block threw. *)
Theorem unheard_error_is_not_recovered (text : jsstring) (c c' : Controller)
    (e : JsError)
    (Hnone : "error" ∉ listeners c)
    (Hfail : processAIResponse entropy text c = (c', Throw e)) :
  (exists thrown,
     snd (processBody entropy text c) = Throw thrown /\
     e = Unhandled thrown (lit "processAIResponse")) /\
  state c' = ERROR /\
  timers c' = timers c /\
  listeners c' = listeners c /\
  List.filter isErrorEvent (List.skipn (List.length (trace c)) (trace c')) = [].
Proof.
  rewrite processAIResponse_cases in Hfail.
  destruct (processBody entropy text c) as [c1 [[]|e1]] eqn:Hbody;
    [discriminate|].
  destruct (processBody_framed _ _ _ _ _ Hbody)
    as (news & (_ & _ & Ht & Hl & Htr & Hne) & _).
  rewrite Hl, bool_decide_eq_false_2 in Hfail by exact Hnone.
  injection Hfail as <- <-.
  split; [exists e1; split; reflexivity|]. split; [reflexivity|].
  split; [exact Ht|]. split; [exact Hl|].
  set (all := [stateChanged (state c) PROCESSING; aiResponseReceived text]
              ++ news) in *.
  cbn [trace setState_ emit_ with_state].
  rewrite Htr, <- List.app_assoc.
  rewrite List.skipn_app, List.skipn_all, Nat.sub_diag. cbn [List.skipn app].
  apply filter_no_error.
  apply List.Forall_app. split; [exact Hne | repeat constructor].
Qed.

End ControllerPaths.

Section ControllerPathsExamples.

Import VirtualHumanController Props.

Lemma processAIResponse_without_modules_witness :
  snd (processAIResponse (fun _ => entropy0) (lit "hi") destroyedController)
  = Normal tt.
Proof.
  rewrite (processAIResponse_without_modules (fun _ => entropy0) (lit "hi")
             destroyedController eq_refl).
  reflexivity.
Defined.

Lemma processAIResponse_of_white_space_witness :
  history
    (fst (processAIResponse (fun _ => entropy0) (lit " ")
            (VirtualHumanFactory.createDefaultController lowerASCII)))
  = history (VirtualHumanFactory.createDefaultController lowerASCII).
Proof.
  rewrite (processAIResponse_of_white_space (fun _ => entropy0) lowerASCII
             (lit " ") (VirtualHumanFactory.createDefaultController lowerASCII)
             eq_refl eq_refl).
  - reflexivity.
  - repeat constructor.
Defined.

Lemma seamless_controller_renders_each_stream_witness :
  state
    (fst (processAIResponse (fun _ => entropy0) greeting
            (VirtualHumanFactory.createHighPerformanceController lowerASCII)))
  = IDLE.
Proof.
  rewrite (proj1 (seamless_controller_renders_each_stream (fun _ => entropy0)
                    lowerASCII greeting
                    (VirtualHumanFactory.createHighPerformanceController lowerASCII)
                    eq_refl eq_refl eq_refl)).
  reflexivity.
Defined.

Lemma recovery_timer_survives_destroy_witness :
  state
    (fire resetErrorState
       (destroy (fst (processAIResponse (fun _ => entropy0) (lit "hi")
                        watchedFailingController))))
  = IDLE.
Proof.
  assert (Hfail : processAIResponse (fun _ => entropy0) (lit "hi")
                    watchedFailingController
                  = (fst (processAIResponse (fun _ => entropy0) (lit "hi")
                            watchedFailingController),
                     Throw transitionFailed)).
  { change (Throw transitionFailed)
      with (snd (processAIResponse (fun _ => entropy0) (lit "hi")
                   watchedFailingController)).
    apply surjective_pairing. }
  assert (Hlistener : "error" ∈ listeners watchedFailingController).
  { apply (bool_decide_eq_true_1 _). reflexivity. }
  exact (proj1 (proj2 (proj2 (proj2 (proj2 (proj2
           (recovery_timer_survives_destroy _ _ _ _ _ Hlistener Hfail))))))).
Defined.

Lemma handled_error_schedules_recovery_witness :
  let c' := fst (processAIResponse (fun _ => entropy0) (lit "hi")
                   watchedFailingController) in
  state c' = ERROR /\ timers c' = [(resetErrorState, 5000)].
Proof.
  intros c'.
  assert (Hfail : processAIResponse (fun _ => entropy0) (lit "hi")
                    watchedFailingController
                  = (c', Throw transitionFailed)).
  { change (Throw transitionFailed)
      with (snd (processAIResponse (fun _ => entropy0) (lit "hi")
                   watchedFailingController)).
    apply surjective_pairing. }
  assert (Hlistener : "error" ∈ listeners watchedFailingController).
  { apply (bool_decide_eq_true_1 _). reflexivity. }
  destruct (handled_error_schedules_recovery _ _ _ _ _ Hlistener Hfail)
    as (_ & Hs & Ht & _).
  split; [exact Hs | exact Ht].
Defined.

Lemma unheard_error_is_not_recovered_witness :
  let c' := fst (processAIResponse (fun _ => entropy0) (lit "hi")
                   failingController) in
  state c' = ERROR /\ timers c' = [].
Proof.
  intros c'.
  assert (Hfail : processAIResponse (fun _ => entropy0) (lit "hi")
                    failingController
                  = (c', Throw (Unhandled transitionFailed
                                  (lit "processAIResponse")))).
  { change (Throw (Unhandled transitionFailed (lit "processAIResponse")))
      with (snd (processAIResponse (fun _ => entropy0) (lit "hi")
                   failingController)).
    apply surjective_pairing. }
  assert (Hnone : "error" ∉ listeners failingController).
  { apply (bool_decide_eq_false_1 _). reflexivity. }
  destruct (unheard_error_is_not_recovered _ _ _ _ _ Hnone Hfail)
    as (_ & Hs & Ht & _).
  split; [exact Hs | exact Ht].
Defined.

End ControllerPathsExamples.

(** ** VirtualHumanController: what the configuration decides *)

Section ControllerConfig.

Import VirtualHumanController Props.

Variable entropy : nat -> Entropy.

Ltac to_records :=
  unfold setState_, with_state, with_history; unfold emit_;
  cbn [state history config modules trace timers listeners].

Lemma forEachSegment_config_blind segments :
  forall i s h g1 g2 m t1 t2 tm ls,
  enableSeamlessTransition g1 = enableSeamlessTransition g2 ->
  is_Some (m !! "generation") ->
  exists news s' h' r,
    forEachSegment entropy i segments (mkController s h g1 m t1 tm ls)
    = (mkController s' h' g1 m (t1 ++ news) tm ls, r) /\
    forEachSegment entropy i segments (mkController s h g2 m t2 tm ls)
    = (mkController s' h' g2 m (t2 ++ news) tm ls, r).
Proof.
  induction segments as [|segment rest IH];
    intros i s h g1 g2 m t1 t2 tm ls Hflag [module Hgen].
  - exists [], s, h, (Normal tt). rewrite !List.app_nil_r. split; reflexivity.
  - rewrite !forEachSegment_cons.
    unfold generateRenderStream, bind, get, getModule.
    cbn [modules history]. rewrite Hgen.
    assert (Hstop : forall err : JsError,
              exists news s' h' r,
                (mkController s h g1 m t1 tm ls, @Throw unit err)
                = (mkController s' h' g1 m (t1 ++ news) tm ls, r) /\
                (mkController s h g2 m t2 tm ls, @Throw unit err)
                = (mkController s' h' g2 m (t2 ++ news) tm ls, r)).
    { intros err. exists [], s, h, (Throw err). rewrite !List.app_nil_r.
      split; reflexivity. }
    destruct module as [f|generate|f|]; cbn [throw await snd]; try apply Hstop.
    destruct (generate (entropy i) segment h) as [rs|err]; [|apply Hstop].
    rewrite !triggerSeamlessTransition_cases. to_records.
    unfold getModule. cbn [modules]. rewrite <- Hflag.
    assert (Hnext : forall pre s1,
              exists news s' h' r,
                forEachSegment entropy (S i) rest
                  (mkController s1 (addToHistory_ rs h) g1 m (t1 ++ pre) tm ls)
                = (mkController s' h' g1 m (t1 ++ pre ++ news) tm ls, r) /\
                forEachSegment entropy (S i) rest
                  (mkController s1 (addToHistory_ rs h) g2 m (t2 ++ pre) tm ls)
                = (mkController s' h' g2 m (t2 ++ pre ++ news) tm ls, r)).
    { intros pre s1.
      destruct (IH (S i) s1 (addToHistory_ rs h) g1 g2 m (t1 ++ pre) (t2 ++ pre)
                  tm ls Hflag (ex_intro _ _ Hgen))
        as (news & s' & h' & r & E1 & E2).
      exists news, s', h', r. rewrite E1, E2, <- !List.app_assoc.
      split; reflexivity. }
    destruct (negb (enableSeamlessTransition g1)).
    { destruct (Hnext [renderStreamReady rs] s) as (news & s' & h' & r & E1 & E2).
      exists ([renderStreamReady rs] ++ news), s', h', r. now rewrite E1, E2. }
    destruct (m !! "transition") as [tmodule|].
    2:{ destruct (Hnext [renderStreamReady rs] s) as (news & s' & h' & r & E1 & E2).
        exists ([renderStreamReady rs] ++ news), s', h', r. now rewrite E1, E2. }
    destruct (callTransition tmodule rs (addToHistory_ rs h)) as [[]|err].
    + to_records. rewrite <- !List.app_assoc.
      destruct (Hnext ([stateChanged s TRANSITIONING]
                       ++ [stateChanged TRANSITIONING RENDERING]
                       ++ [renderStreamReady rs]) RENDERING)
        as (news & s' & h' & r & E1 & E2).
      eexists _, s', h', r. rewrite E1, E2. split; reflexivity.
    + to_records.
      exists [stateChanged s TRANSITIONING], TRANSITIONING,
             (addToHistory_ rs h), (Throw err).
      split; reflexivity.
Qed.

Lemma segmentText_blind text c1 c2 :
  modules c1 = modules c2 ->
  enableSmartSegmentation (config c1) = enableSmartSegmentation (config c2) ->
  snd (segmentText text c1) = snd (segmentText text c2).
Proof.
  intros Hm Hf. unfold segmentText, bind, get, getModule. rewrite Hm, Hf.
  destruct (modules c2 !! "segmentation") as [[]|];
    destruct (enableSmartSegmentation (config c2)); reflexivity.
Qed.

(** X17. While a generation module is registered, the defaults of the
    controller's configuration decide nothing: after an [updateConfig] that
    holds neither of the two switches, the next call has the outcome, the
    final state, the history, the timers and the events it would have had
    without it. *)
Theorem updateConfig_defaults_are_not_read (text : jsstring) (c : Controller)
    (partial : PartialConfig)
    (Hgen : is_Some (getModule "generation" c))
    (Hkeeps : keepsSwitches partial) :
  exists news s' h' tm' r,
    processAIResponse entropy text c
    = (mkController s' h' (config c) (modules c) (trace c ++ news) tm'
         (listeners c), r) /\
    processAIResponse entropy text (updateConfig partial c)
    = (mkController s' h' (spread (config c) partial) (modules c)
         (trace c ++ [configUpdated (spread (config c) partial)] ++ news) tm'
         (listeners c),
       r).
Proof.
  destruct Hkeeps as [Hseamless Hsmart].
  destruct c as [s h g m t tm ls]. unfold updateConfig, getModule, with_config in *.
  unfold emit_ in *. cbn [state history config modules trace timers listeners] in *.
  cbv zeta. set (g2 := spread g partial).
  assert (Hflag : enableSeamlessTransition g = enableSeamlessTransition g2)
    by (unfold g2, spread; cbn; now rewrite Hseamless).
  assert (Hflag2 : enableSmartSegmentation g = enableSmartSegmentation g2)
    by (unfold g2, spread; cbn; now rewrite Hsmart).
  rewrite !processAIResponse_cases, !processBody_unfold. cbv zeta.
  to_records.
  match goal with
  | |- context [snd (segmentText text ?cA)] =>
      match goal with
      | |- context [snd (segmentText text ?cB)] =>
          lazymatch cB with
          | cA => fail
          | _ =>
              let Hs := fresh "Hs" in
              assert (Hs : snd (segmentText text cB) = snd (segmentText text cA))
                by (apply segmentText_blind;
                    [reflexivity | first [exact Hflag2 | exact (eq_sym Hflag2)]]);
              rewrite Hs; clear Hs
          end
      end
  end.
  destruct (snd (segmentText text _)) as [segments|err].
  2:{ to_records. destruct (bool_decide ("error" ∈ ls));
        to_records; unfold setTimeout_;
        cbn [state history config modules trace timers listeners];
        eexists _, ERROR, h, _, (Throw _);
        rewrite <- !List.app_assoc; split; reflexivity. }
  destruct (forEachSegment_config_blind segments 0 PROCESSING h g g2 m
              ((t ++ [stateChanged s PROCESSING]) ++ [aiResponseReceived text])
              (((t ++ [configUpdated g2]) ++ [stateChanged s PROCESSING])
               ++ [aiResponseReceived text])
              tm ls Hflag Hgen) as (news & s' & h' & r & E1 & E2).
  rewrite E1, E2. destruct r as [[]|err].
  - to_records.
    eexists _, IDLE, h', tm, (Normal tt).
    rewrite <- !List.app_assoc. split; reflexivity.
  - to_records. destruct (bool_decide ("error" ∈ ls));
      to_records; unfold setTimeout_;
      cbn [state history config modules trace timers listeners];
      eexists _, ERROR, h', _, (Throw _);
      rewrite <- !List.app_assoc; split; reflexivity.
Qed.

End ControllerConfig.

Section ControllerConfigExamples.

Import VirtualHumanController Props.

Lemma updateConfig_defaults_are_not_read_witness :
  let c := VirtualHumanFactory.createDefaultController lowerASCII in
  let partial :=
    mkPartialConfig None (Some (lit "surprised")) None None None None in
  history (fst (processAIResponse (fun _ => entropy0) greeting
                  (updateConfig partial c)))
  = history (fst (processAIResponse (fun _ => entropy0) greeting c)).
Proof.
  intros c partial.
  destruct (updateConfig_defaults_are_not_read (fun _ => entropy0) greeting c
              partial (ex_intro _ _ eq_refl) (conj eq_refl eq_refl))
    as (news & s' & h' & tm' & r & E1 & E2).
  rewrite E1, E2. reflexivity.
Defined.

End ControllerConfigExamples.

(** ** CameraModeAdapter *)

Section AdapterMore.

Import VirtualHumanController Props.

Variable entropy : nat -> Entropy.



End AdapterMore.

(** ** TransitionModule *)

Section TransitionMore.

Import VirtualHumanController Props.

Variable stringify : option (list (option jsstring)) -> option jsstring.
Variable config : TransitionModule.Config.

Lemma addToHistory_last (rs : RenderStream) (h : RenderStreamHistory) :
  1 <= maxHistory h ->
  at_index (streams (addToHistory_ rs h))
    (Z.of_nat (List.length (streams (addToHistory_ rs h))) - 1) = Some rs.
Proof.
  intros Hmax. unfold addToHistory_.
  destruct (Z.ltb_spec (maxHistory h) (Z.of_nat (List.length (streams h ++ [rs]))));
    cbn [streams]; [|apply at_index_snoc].
  destruct (streams h) as [|x l].
  - simpl in *. lia.
  - cbn [app List.tl]. apply at_index_snoc.
Qed.

(** X19. The controller appends a stream to the history before it hands the
    stream and the history to the transition module, so the module compares
    the stream with itself: whatever the stream and the streams before it,
    no channel counts as changed, no sub-transition and no cross-fade waits,
    and the only wait of the transition is the final one of 100 ms. *)
Theorem transition_in_pipeline_compares_stream_with_itself
    (rs : RenderStream) (h : RenderStreamHistory)
    (Hcapacity : 1 <= maxHistory h) :
  TransitionModule.analyzeTransitionNeeds stringify rs (addToHistory_ rs h)
  = TransitionModule.mkNeeds false false false false false /\
  TransitionModule.delays stringify config rs (addToHistory_ rs h)
  = [(TransitionModule.finalStep, 100)].
Proof.
  assert (Hneeds :
            TransitionModule.analyzeTransitionNeeds stringify rs (addToHistory_ rs h)
            = TransitionModule.mkNeeds false false false false false).
  { unfold TransitionModule.analyzeTransitionNeeds.
    rewrite (addToHistory_last rs h Hcapacity).
    rewrite !bool_decide_eq_true_2 by reflexivity. reflexivity. }
  split; [exact Hneeds|].
  unfold TransitionModule.delays. rewrite Hneeds.
  unfold TransitionModule.performSmoothTransition, TransitionModule.performCrossFade.
  cbn [TransitionModule.expressionChange TransitionModule.motionChange
       TransitionModule.cameraChange TransitionModule.sceneChange
       TransitionModule.backgroundChange andb orb app].
  destruct (TransitionModule.enableSmoothTransition config),
           (TransitionModule.enableCrossFade config); reflexivity.
Qed.

End TransitionMore.

Section AdapterTransitionExamples.

Import VirtualHumanController Props.


Lemma transition_in_pipeline_compares_stream_with_itself_witness :
  TransitionModule.delays (fun _ => None) TransitionModule.defaultConfig
    (streamWithCamera CamSmart)
    (addToHistory_ (streamWithCamera CamSmart) (mkHistory (-1) 50 []))
  = [(TransitionModule.finalStep, 100)].
Proof.
  refine (proj2 (transition_in_pipeline_compares_stream_with_itself
                   (fun _ => None) TransitionModule.defaultConfig
                   (streamWithCamera CamSmart) (mkHistory (-1) 50 []) _)).
  simpl. lia.
Defined.

End AdapterTransitionExamples.

(** ** SmartSentenceSegmenter: a stream of contents *)

Section AccumulatorMore.

Import SmartSentenceSegmenter Props.

(** X20. A content that is not longer than the last one gives nothing: a
    shorter one resets the accumulator, which then holds an empty buffer
    and takes the content as processed; one of the same length, equal or
    not, leaves the accumulator as it was. *)
Theorem processNewContent_not_grown (content : jsstring) (s : Segmenter)
    (Hnot : (List.length content <= List.length (lastProcessedContent s))%nat) :
  fst (processNewContent content s) = [] /\
  snd (processNewContent content s)
  = (if (List.length content <? List.length (lastProcessedContent s))%nat
     then mkSegmenter [] content
     else s).
Proof.
  unfold processNewContent.
  destruct (eqb content (lastProcessedContent s)) eqn:E.
  - apply bool_decide_eq_true_1 in E. rewrite E, Nat.ltb_irrefl.
    split; reflexivity.
  - destruct (Nat.ltb_spec (List.length content)
                (List.length (lastProcessedContent s))) as [Hlt|Hge].
    + replace (len content <? len (lastProcessedContent s)) with true
        by (symmetry; apply Z.ltb_lt; unfold len; lia).
      split; reflexivity.
    + replace (len content <? len (lastProcessedContent s)) with false
        by (symmetry; apply Z.ltb_ge; unfold len; lia).
      replace (len (sliceFrom (List.length (lastProcessedContent s)) content) =? 0)
        with true; [split; reflexivity|].
      symmetry. apply Z.eqb_eq. unfold len, sliceFrom.
      rewrite List.length_skipn. lia.
Qed.

Lemma processNewContent_grown (content : jsstring) (s : Segmenter) :
  (List.length (lastProcessedContent s) < List.length content)%nat ->
  processNewContent content s
  = extractCompleteSentences
      (mkSegmenter
         (sentenceBuffer s
          ++ sliceFrom (List.length (lastProcessedContent s)) content)
         content).
Proof.
  intros Hgrown. unfold processNewContent.
  replace (eqb content (lastProcessedContent s)) with false.
  2:{ symmetry. apply bool_decide_eq_false_2. intros E. rewrite E in Hgrown. lia. }
  replace (len content <? len (lastProcessedContent s)) with false
    by (symmetry; apply Z.ltb_ge; unfold len; lia).
  replace (len (sliceFrom (List.length (lastProcessedContent s)) content) =? 0)
    with false; [reflexivity|].
  symmetry. apply Z.eqb_neq. unfold len, sliceFrom.
  rewrite List.length_skipn. lia.
Qed.

Lemma sentenceMatch_after_terminator (c : N) (rest : jsstring) :
  isLineTerminator c = true -> sentenceMatch (c :: rest) = None.
Proof.
  intros Hc. unfold sentenceMatch. cbn [matchEnd]. unfold isDot. rewrite Hc.
  reflexivity.
Qed.

(** X21. A buffer that begins with a line terminator blocks the
    accumulator: whatever content comes, nothing is emitted, and the buffer
    still begins with that terminator, unless the content is shorter than
    the last one, which resets the accumulator. *)
Theorem buffer_with_leading_newline_is_stuck (content : jsstring)
    (s : Segmenter) (c : N) (rest : jsstring)
    (Hbuffer : sentenceBuffer s = c :: rest)
    (Hterminator : isLineTerminator c = true) :
  fst (processNewContent content s) = [] /\
  (if (List.length content <? List.length (lastProcessedContent s))%nat
   then snd (processNewContent content s) = mkSegmenter [] content
   else exists rest',
          sentenceBuffer (snd (processNewContent content s)) = c :: rest').
Proof.
  destruct (Nat.ltb_spec (List.length content)
              (List.length (lastProcessedContent s))) as [Hlt|Hge].
  - unfold processNewContent.
    replace (eqb content (lastProcessedContent s)) with false.
    2:{ symmetry. apply bool_decide_eq_false_2. intros E. rewrite E in Hlt. lia. }
    replace (len content <? len (lastProcessedContent s)) with true
      by (symmetry; apply Z.ltb_lt; unfold len; lia).
    split; reflexivity.
  - destruct (Nat.eq_dec (List.length content)
                (List.length (lastProcessedContent s))) as [Heq|Hne].
    + unfold processNewContent.
      replace (len content <? len (lastProcessedContent s)) with false
        by (symmetry; apply Z.ltb_ge; unfold len; lia).
      replace (len (sliceFrom (List.length (lastProcessedContent s)) content) =? 0)
        with true.
      2:{ symmetry. apply Z.eqb_eq. unfold len, sliceFrom.
          rewrite List.length_skipn. lia. }
      destruct (eqb content (lastProcessedContent s));
        (split; [reflexivity | exists rest; exact Hbuffer]).
    + rewrite (processNewContent_grown content s) by lia.
      rewrite Hbuffer. unfold extractCompleteSentences. cbn [sentenceBuffer app].
      rewrite (sentenceMatch_after_terminator c _ Hterminator).
      split; [reflexivity|]. eexists. reflexivity.
Qed.

End AccumulatorMore.

Section AccumulatorStream.

Import SmartSentenceSegmenter Props.

Lemma prefix_of_match (sentence rest body rest' : jsstring) (c : N) :
  sentence ++ rest = body ++ c :: rest' ->
  List.length sentence = S (List.length body) ->
  sentence = body ++ [c].
Proof.
  intros E Hlen.
  apply (f_equal (List.firstn (S (List.length body)))) in E.
  rewrite <- Hlen in E at 1.
  rewrite List.firstn_app, List.firstn_all, Nat.sub_diag in E.
  cbn [List.firstn] in E. rewrite List.app_nil_r in E.
  rewrite List.firstn_app, List.firstn_all2 in E by lia.
  replace (S (List.length body) - List.length body)%nat with 1%nat in E by lia.
  exact E.
Qed.

Lemma matchesAt_complete (min : nat) (stop : N -> bool)
    (sentence rest : jsstring) :
  (1 <= min)%nat ->
  matchesAt min stop (sentence ++ rest) (List.length sentence) ->
  exists body last,
    sentence = body ++ [last] /\ body <> [] /\
    List.Forall (fun c => isLineTerminator c = false) body /\
    stop last = true /\ (min <= List.length body)%nat.
Proof.
  intros Hmin (body & c & rest' & E & Hdots & Hstop & Hlen & Hn).
  cbn [Nat.add] in *. exists body, c.
  split; [eapply prefix_of_match; eassumption|].
  split; [destruct body; [simpl in Hlen; lia | discriminate]|].
  split; [|split; assumption].
  eapply List.Forall_impl; [|exact Hdots].
  intros d Hd. unfold isDot in Hd. now destruct (isLineTerminator d).
Qed.

Lemma extract_complete (s : Segmenter) :
  List.Forall completeSentence (fst (extractCompleteSentences s)).
Proof.
  destruct (extractCompleteSentences_spec s)
    as (_ & [(-> & _)|(sentence & rest & -> & Hbuf & Hrule & _)]);
    [constructor|].
  constructor; [|constructor]. rewrite Hbuf in Hrule.
  destruct Hrule as [[Hm _]|[_ [Hm _]]].
  - destruct (matchesAt_complete 1 isStop sentence rest (le_n 1) Hm)
      as (body & last & -> & Hne & Hline & Hstop & _).
    exists body, last. repeat split; try assumption. now left.
  - assert (H10 : (1 <= 10)%nat) by lia.
    destruct (matchesAt_complete 10 isSoft sentence rest H10 Hm)
      as (body & last & -> & Hne & Hline & Hstop & Hlen).
    exists body, last. repeat split; try assumption. right. now split.
Qed.

(** X22. Whatever the accumulator holds and whatever content comes, what it
    emits is one line with its end: characters without a line terminator,
    at least one, and then a newline or one of ~ 。 ！ ． ？ , or at least ten
    of them and then , or 、 . *)
Theorem emitted_sentence_is_one_line (content : jsstring) (s : Segmenter) :
  List.Forall completeSentence (fst (processNewContent content s)).
Proof.
  unfold processNewContent.
  destruct (eqb content (lastProcessedContent s)); [constructor|].
  destruct (len content <? len (lastProcessedContent s)); [constructor|].
  destruct (len _ =? 0); [constructor|].
  apply extract_complete.
Qed.

Lemma last_cons {A} (a d : A) (l : list A) :
  List.last (a :: l) d = List.last l a.
Proof.
  revert a d. induction l as [|b l IH]; intros a d; [reflexivity|].
  change (List.last (a :: b :: l) d) with (List.last (b :: l) d).
  now rewrite (IH b d), (IH b a).
Qed.

Lemma processNewContent_more (more : jsstring) (s : Segmenter) :
  let content := lastProcessedContent s ++ more in
  lastProcessedContent (snd (processNewContent content s)) = content /\
  nonWhite (List.concat (fst (processNewContent content s))
            ++ sentenceBuffer (snd (processNewContent content s)))
  = nonWhite (sentenceBuffer s ++ more).
Proof.
  intros content. subst content. destruct more as [|m more].
  - rewrite List.app_nil_r. unfold processNewContent, eqb.
    rewrite bool_decide_eq_true_2 by reflexivity.
    cbn [fst snd List.concat app]. now rewrite List.app_nil_r.
  - rewrite processNewContent_grown
      by (rewrite List.length_app; simpl; lia).
    unfold sliceFrom.
    rewrite List.skipn_app, List.skipn_all, Nat.sub_diag. cbn [List.skipn app].
    destruct (extractCompleteSentences_spec
                (mkSegmenter (sentenceBuffer s ++ m :: more)
                   (lastProcessedContent s ++ m :: more)))
      as (Hlast & [(-> & -> & _)|(sentence & rest & -> & Hbuf & _ & ->)]);
      cbn [sentenceBuffer lastProcessedContent] in *.
    + split; [exact Hlast | reflexivity].
    + split; [exact Hlast|]. cbn [List.concat]. rewrite List.app_nil_r, Hbuf.
      now rewrite !nonWhite_app, nonWhite_trimStart.
Qed.

(** X23. Fed contents that grow, each one the one before it with more text
    at its end, the accumulator loses and repeats no character but white
    space: what it emitted, put end to end, and what it still holds are,
    white space ignored, what it held before and the text that came, in
    order; and it takes the last content as processed. *)
Theorem feed_keeps_every_character (contents : list jsstring) (s : Segmenter)
    (Hgrowing : growing (lastProcessedContent s) contents) :
  let final := List.last contents (lastProcessedContent s) in
  lastProcessedContent (snd (feed contents s)) = final /\
  exists more,
    final = lastProcessedContent s ++ more /\
    nonWhite (List.concat (fst (feed contents s))
              ++ sentenceBuffer (snd (feed contents s)))
    = nonWhite (sentenceBuffer s ++ more).
Proof.
  revert s Hgrowing.
  induction contents as [|content rest IH]; intros s Hgrowing final; subst final.
  - split; [reflexivity|]. exists []. now rewrite !List.app_nil_r.
  - destruct Hgrowing as [(more1 & ->) Hrest].
    rewrite last_cons. cbn [feed].
    destruct (processNewContent_more more1 s) as [Hlast Hkept].
    destruct (processNewContent (lastProcessedContent s ++ more1) s)
      as [out s1]. cbn [fst snd] in Hlast, Hkept.
    rewrite <- Hlast in Hrest. destruct (IH s1 Hrest) as [Hfinal (more2 & Hm & Hk)].
    destruct (feed rest s1) as [outs s2]. cbn [fst snd] in *.
    rewrite Hlast in Hfinal, Hm. split; [exact Hfinal|].
    exists (more1 ++ more2). split; [now rewrite List.app_assoc|].
    rewrite List.concat_app, <- List.app_assoc, nonWhite_app, Hk.
    rewrite List.app_assoc, (nonWhite_app (sentenceBuffer s ++ more1)), <- Hkept.
    now rewrite !nonWhite_app, List.app_assoc.
Qed.

End AccumulatorStream.

Section AccumulatorMoreExamples.

Import SmartSentenceSegmenter Props.

Lemma processNewContent_not_grown_witness :
  snd (processNewContent (lit "ab") (mkSegmenter (lit "c") (lit "abc")))
  = mkSegmenter [] (lit "ab").
Proof.
  refine (proj2 (processNewContent_not_grown (lit "ab")
                   (mkSegmenter (lit "c") (lit "abc")) _)).
  simpl. lia.
Defined.

(** A reply that begins with a newline: its greeting is never emitted. *)
Lemma buffer_with_leading_newline_is_stuck_witness :
  fst (processNewContent (leadingNewline ++ greeting)
         (snd (processNewContent leadingNewline SmartSentenceSegmenter.new)))
  = [].
Proof.
  refine (proj1 (buffer_with_leading_newline_is_stuck
                   (leadingNewline ++ greeting)
                   (snd (processNewContent leadingNewline
                           SmartSentenceSegmenter.new))
                   0x0A%N [0x4F60; 0x597D; 0x3002]%N _ _));
    reflexivity.
Defined.

Lemma feed_keeps_every_character_witness :
  exists more,
    twoLines = [] ++ more /\
    nonWhite
      (List.concat
         (fst (feed [[0x4F60; 0x597D]%N; twoLines] SmartSentenceSegmenter.new))
       ++ sentenceBuffer
            (snd (feed [[0x4F60; 0x597D]%N; twoLines] SmartSentenceSegmenter.new)))
    = nonWhite ([] ++ more).
Proof.
  refine (proj2 (feed_keeps_every_character [[0x4F60; 0x597D]%N; twoLines]
                   SmartSentenceSegmenter.new _)).
  simpl. split; [exists [0x4F60; 0x597D]%N; reflexivity|].
  split; [|exact I].
  exists [0x3002; 0x0A; 0x6211; 0x597D; 0x3002]%N. reflexivity.
Defined.

End AccumulatorMoreExamples.
